(** * Planilla de ensayos: test sheet state and calculation engine

    A shallow embedding of [src/App.jsx] and the properties of its
    numeric format, derivation engine, classification rules, tap row
    generator, project model and debounced persistence, of the handlers
    of its tables, of its spreadsheet export and of the deletion of a
    project from the dashboard.

    JavaScript numbers are IEEE 754 binary64 values; they are modelled by
    [spec_float] at precision 53 and maximal exponent 1024, the executable
    specification of double arithmetic of the standard library, so that
    [NaN], the infinities, the two zeros and every rounding are those of
    the program.  Strings are sequences of bytes holding the UTF-8
    encoding of the text; objects used as records of optional text fields
    are finite maps from field names to texts.  The random identifiers
    and the clock are read from an explicit environment, and the effects
    of the application (the calls of [setDoc], the pending timeout) are
    fields of an explicit state. *)

From Stdlib Require Import ZArith Bool Ascii String List Lia.
From Stdlib Require Import Floats.SpecFloat.
From stdpp Require Import gmap strings pretty list fin_maps.

Open Scope Z_scope.

(* ===================================================================== *)
(** * JavaScript numbers *)
(* ===================================================================== *)

Module JSNumber.

Definition prec : Z := 53.
Definition emax : Z := 1024.

(** A JavaScript number. *)
Definition number : Type := spec_float.

Definition add : number -> number -> number := SFadd prec emax.
Definition sub : number -> number -> number := SFsub prec emax.
Definition mul : number -> number -> number := SFmul prec emax.
Definition div : number -> number -> number := SFdiv prec emax.

(** The number value of an integer literal. *)
Definition of_Z (z : Z) : number := binary_normalize prec emax z 0 false.

(** The number value of the positive rational [num / den], rounded to
    nearest, ties to even, with the sign [s]. *)
Definition of_ratio (s : bool) (num den : Z) : number :=
  let '(q, e, l) := SFdiv_core_binary prec emax num 0 den 0 in
  binary_round_aux prec emax s q e l.

Definition zero : number := S754_zero false.
Definition NaN : number := S754_nan.

(** Global [isNaN] on a number. *)
Definition isNaN (x : number) : bool :=
  match x with S754_nan => true | _ => false end.

Definition isFinite (x : number) : bool :=
  match x with S754_nan | S754_infinity _ => false | _ => true end.

(** [x === 0]: both zeros compare equal to the literal [0]. *)
Definition is_zero (x : number) : bool := SFeqb x zero.

Definition ltb : number -> number -> bool := SFltb.
Definition leb : number -> number -> bool := SFleb.
(** [x > y] is [y < x] with the operands evaluated left to right. *)
Definition gtb (x y : number) : bool := SFltb y x.

(** [Math.abs] *)
Definition abs : number -> number := SFabs.

End JSNumber.

(* ===================================================================== *)
(** * JavaScript strings and the string/number conversions *)
(* ===================================================================== *)

Module JSString.
Import JSNumber.

Definition byte_at (s : string) (i : nat) : Z :=
  match String.get i s with
  | Some c => Z.of_N (N_of_ascii c)
  | None => 256
  end.

Fixpoint string_drop (n : nat) (s : string) : string :=
  match n, s with
  | O, _ => s
  | S n', String _ r => string_drop n' r
  | S _, EmptyString => EmptyString
  end.

(** [s.replace(c, d)] with one-character strings [c] and [d]: only the
    first occurrence is replaced. *)
Fixpoint replace_first (c d : ascii) (s : string) : string :=
  match s with
  | EmptyString => EmptyString
  | String a r =>
      if Ascii.eqb a c then String d r else String a (replace_first c d r)
  end.

(** Number of bytes of the WhiteSpace or LineTerminator code point at the
    start of [s]; [0] when [s] starts with none. *)
Definition white_space_length (s : string) : nat :=
  let b0 := byte_at s 0 in
  let b1 := byte_at s 1 in
  let b2 := byte_at s 2 in
  if ((9 <=? b0) && (b0 <=? 13)) || (b0 =? 32) then 1%nat       (* TAB LF VT FF CR SP *)
  else if (b0 =? 194) && (b1 =? 160) then 2%nat                   (* U+00A0 *)
  else if (b0 =? 225) && (b1 =? 154) && (b2 =? 128) then 3%nat    (* U+1680 *)
  else if (b0 =? 226) && (b1 =? 128) &&
          (((128 <=? b2) && (b2 <=? 138))                         (* U+2000..U+200A *)
           || (b2 =? 168) || (b2 =? 169) || (b2 =? 175))          (* U+2028 U+2029 U+202F *)
       then 3%nat
  else if (b0 =? 226) && (b1 =? 129) && (b2 =? 159) then 3%nat    (* U+205F *)
  else if (b0 =? 227) && (b1 =? 128) && (b2 =? 128) then 3%nat    (* U+3000 *)
  else if (b0 =? 239) && (b1 =? 187) && (b2 =? 191) then 3%nat    (* U+FEFF *)
  else 0%nat.

Fixpoint trim_start_fuel (fuel : nat) (s : string) : string :=
  match fuel with
  | O => s
  | S fuel' =>
      match white_space_length s with
      | O => s
      | k => trim_start_fuel fuel' (string_drop k s)
      end
  end.

(** TrimString(s, start) *)
Definition trim_start (s : string) : string :=
  trim_start_fuel (String.length s) s.

Definition digit_value (c : ascii) : option Z :=
  let n := Z.of_N (N_of_ascii c) in
  if (48 <=? n) && (n <=? 57) then Some (n - 48) else None.

(** Reads the longest prefix of decimal digits of [s]: the value of
    [acc] followed by these digits, their count added to [cnt], and the
    rest of the string. *)
Fixpoint read_digits (acc cnt : Z) (s : string) : Z * Z * string :=
  match s with
  | EmptyString => (acc, cnt, s)
  | String c r =>
      match digit_value c with
      | Some d => read_digits (10 * acc + d) (cnt + 1) r
      | None => (acc, cnt, s)
      end
  end.

Definition read_sign (s : string) : bool * string :=
  match s with
  | String c r =>
      if Ascii.eqb c "-" then (true, r)
      else if Ascii.eqb c "+" then (false, r)
      else (false, s)
  | EmptyString => (false, s)
  end.

(** The exponent part at the start of [s], [0] when there is none. *)
Definition read_exponent (s : string) : Z :=
  match s with
  | String c r =>
      if Ascii.eqb c "e" || Ascii.eqb c "E" then
        let '(neg, r') := read_sign r in
        let '(ev, ne, _) := read_digits 0 0 r' in
        if ne =? 0 then 0 else if neg then - ev else ev
      else 0
  | EmptyString => 0
  end.

(** The number value of the mathematical value [m * 10 ^ dexp] of a
    decimal literal with sign [neg]. *)
Definition decimal_value (neg : bool) (m dexp : Z) : number :=
  if m =? 0 then S754_zero neg
  else if 0 <=? dexp then of_ratio neg (m * 10 ^ dexp) 1
  else of_ratio neg m (10 ^ (- dexp)).

(** Global [parseFloat] on a string: the number value of the longest
    prefix of the trimmed string that is a StrDecimalLiteral, [NaN]
    when there is none. *)
Definition parseFloat (s : string) : number :=
  let '(neg, u) := read_sign (trim_start s) in
  if String.prefix "Infinity" u then S754_infinity neg
  else
    let '(ip, ni, r1) := read_digits 0 0 u in
    let '(m, nf, r2) :=
      match r1 with
      | String c r => if Ascii.eqb c "." then read_digits ip 0 r else (ip, 0, r1)
      | EmptyString => (ip, 0, r1)
      end in
    if (ni =? 0) && (nf =? 0) then NaN
    else decimal_value neg m (read_exponent r2 - nf).

(** ** Number to string *)

(** What a call that may throw produces. *)
Inductive outcome (A : Type) : Type :=
| Returns (a : A)
| RangeError.
Arguments Returns {A} a.
Arguments RangeError {A}.

(** The decimal digits of a non-negative integer. *)
Definition digits (n : Z) : string := pretty (Z.to_N n).

Fixpoint zeros (n : nat) : string :=
  match n with
  | O => EmptyString
  | S n' => String "0" (zeros n')
  end.

(** The integer [n] for which [n / 10 ^ f - m * 2 ^ e] is as close to
    zero as possible, the larger one when there are two. *)
Definition nearest_scaled (m : positive) (e f : Z) : Z :=
  if 0 <=? e then Z.pos m * 2 ^ e * 10 ^ f
  else (2 * Z.pos m * 10 ^ f + 2 ^ (- e)) / (2 * 2 ^ (- e)).

(** [m * 2 ^ e >= 10 ^ 21] *)
Definition at_least_1e21 (m : positive) (e : Z) : bool :=
  if 0 <=? e then 10 ^ 21 <=? Z.pos m * 2 ^ e
  else 10 ^ 21 * 2 ^ (- e) <=? Z.pos m.

(** Steps 11.b to 11.c of Number.prototype.toFixed: the digits of [n]
    with a period before the last [f] of them. *)
Definition fixed_point (n f : Z) : string :=
  let m := digits n in
  if f =? 0 then m
  else
    let k := Z.of_nat (String.length m) in
    let m' := if k <=? f then zeros (Z.to_nat (f + 1 - k)) +:+ m else m in
    let k' := if k <=? f then f + 1 else k in
    String.substring 0 (Z.to_nat (k' - f)) m' +:+ "." +:+
    String.substring (Z.to_nat (k' - f)) (Z.to_nat f) m'.

(** Number::toString for an integer-valued double [m * 2 ^ e] of at
    least [10 ^ 21]: the shortest decimal that reads back as the same
    double, in exponential notation. *)
Section Shortest.
Variables (m : positive) (e : Z).

Definition exact : Z := Z.pos m * 2 ^ e.
Definition upper_bound : Z := exact + 2 ^ (e - 1).
Definition lower_bound : Z :=
  exact - (if Z.pos m =? 2 ^ (prec - 1) then 2 ^ (e - 2) else 2 ^ (e - 1)).

(** [v] rounds to the double [m * 2 ^ e]. *)
Definition reads_back (v : Z) : bool :=
  if Z.even (Z.pos m) then (lower_bound <=? v) && (v <=? upper_bound)
  else (lower_bound <? v) && (v <? upper_bound).

Definition digit_count : Z := Z.of_nat (String.length (digits exact)).

(** The significand [s] with [k] digits and the exponent [n] such
    that [s * 10 ^ (n - k)] reads back, for the least such [k]. *)
Fixpoint shortest (fuel : nat) (k : Z) : Z * Z * Z :=
  let p := 10 ^ (digit_count - k) in
  let c := exact / p in
  let below := reads_back (c * p) in
  let above := reads_back ((c + 1) * p) in
  let pick (s : Z) := if s =? 10 ^ k then (10 ^ (k - 1), k, digit_count + 1)
                      else (s, k, digit_count) in
  match fuel with
  | O => (exact, digit_count, digit_count)
  | S fuel' =>
      if below && above then
        match (exact - c * p) ?= ((c + 1) * p - exact) with
        | Lt => pick c
        | Gt => pick (c + 1)
        | Eq => pick (if Z.even c then c else c + 1)
        end
      else if below then pick c
      else if above then pick (c + 1)
      else shortest fuel' (k + 1)
  end.

Definition to_string_large : string :=
  let '(s, k, n) := shortest 17 1 in
  let ds := digits s in
  let mantissa :=
    if k =? 1 then ds
    else String.substring 0 1 ds +:+ "." +:+
         String.substring 1 (Z.to_nat (k - 1)) ds in
  mantissa +:+ "e+" +:+ digits (n - 1).
End Shortest.

(** Number.prototype.toFixed, called on the number [x] with an integer
    argument [f]. *)
Definition toFixed (x : number) (f : Z) : outcome string :=
  if (f <? 0) || (100 <? f) then RangeError
  else
    Returns
      match x with
      | S754_nan => "NaN"
      | S754_infinity neg => if neg then "-Infinity" else "Infinity"
      | S754_zero _ => fixed_point 0 f
      | S754_finite neg m e =>
          (if neg then "-" else EmptyString) +:+
          (if at_least_1e21 m e then to_string_large m e
           else fixed_point (nearest_scaled m e f) f)
      end.

End JSString.

(* ===================================================================== *)
(** * The editor: numeric format, derivations, classification, tap rows *)
(* ===================================================================== *)

(** A field read from a row object: [None] is [undefined] (the row has
    no such field), [Some s] the stored text. *)
Abbreviation field := (option string).

(** A row object: its fields by name. *)
Abbreviation row := (gmap string string).

Record ResistanceSettings : Type := {
  measuredTemp : string;
  refTemp : string;
  conn1Name : string;
  conn2Name : string;
  conn3Name : string
}.

Record HeaderInfo : Type := {
  manufacturingNumber : string;
  serialNumber : string;
  client : string;
  date : string
}.

Module NumericFormat.
Import JSNumber JSString.

(** [parseNum]: a falsy value ([undefined] or the empty string) is [0]. *)
Definition parseNum (val : field) : number :=
  match val with
  | Some (String _ _ as s) => parseFloat (replace_first "," "." s)
  | Some EmptyString | None => of_Z 0
  end.

(** [formatNum]: [val] is [None] for [null] and [undefined];
    [decimals] is [None] when the argument is left out. *)
Definition formatNum (val : option number) (decimals : option Z) : outcome string :=
  let decimals := default 3 decimals in
  match val with
  | None => Returns "-"
  | Some v =>
      if isNaN v then Returns "-"
      else
        match toFixed v decimals with
        | Returns s => Returns (replace_first "." "," s)
        | RangeError => RangeError
        end
  end.

End NumericFormat.

Module DerivationEngine.
Import JSNumber NumericFormat.

Definition calculateDeviation (measured rated : field) : option number :=
  let m := parseNum measured in
  let r := parseNum rated in
  if isNaN m || isNaN r || is_zero r then None
  else Some (mul (div (sub m r) r) (of_Z 100)).

Definition calculateResistanceCorrection
    (resistanceSettings : ResistanceSettings) (measuredVal : field) : option number :=
  let m := parseNum measuredVal in
  let t_meas := parseNum (Some (measuredTemp resistanceSettings)) in
  let t_ref := parseNum (Some (refTemp resistanceSettings)) in
  if isNaN m || isNaN t_meas || isNaN t_ref then None
  else Some (mul m (div (add (of_Z 235) t_ref) (add (of_Z 235) t_meas))).

Definition calculateDAR (val1m val30s : field) : option number :=
  let v1 := parseNum val1m in
  let v30 := parseNum val30s in
  if is_zero v30 || isNaN v1 || isNaN v30 then None
  else Some (div v1 v30).

Definition calculatePI (val10m val1m : field) : option number :=
  let v10 := parseNum val10m in
  let v1 := parseNum val1m in
  if is_zero v1 || isNaN v10 || isNaN v1 then None
  else Some (div v10 v1).

End DerivationEngine.

Module ClassificationRules.
Import JSNumber NumericFormat.

Inductive Icon : Type := CheckCircle | AlertCircle.

Record Status : Type := {
  color : string;
  icon : option Icon;
  label : option string
}.

Definition green : string :=
  "bg-green-100 text-green-700 font-bold border-green-300 print:bg-gray-100 print:text-black print:border-gray-400".
Definition red : string :=
  "bg-red-100 text-red-700 font-bold border-red-300 print:bg-gray-200 print:text-black print:font-bold print:border-black".

(** The literals [0.5] and [1.0]. *)
Definition half : number := of_ratio false 5 10.
Definition one : number := of_Z 1.

Definition getStatusTTR (deviation : option number) : Status :=
  match deviation with
  | None =>
      {| color := "bg-gray-50 text-gray-400 print:text-gray-400"; icon := None; label := None |}
  | Some deviation =>
      let absDev := abs deviation in
      if leb absDev half then {| color := green; icon := Some CheckCircle; label := None |}
      else {| color := red; icon := Some AlertCircle; label := None |}
  end.

Definition getStatusTG (valStr : field) : Status :=
  match valStr with
  | None | Some EmptyString => {| color := "bg-white"; icon := None; label := None |}
  | Some _ =>
      let val := parseNum valStr in
      if ltb val half then {| color := green; icon := Some CheckCircle; label := None |}
      else {| color := red; icon := Some AlertCircle; label := None |}
  end.

Definition getStatusIP (piValue : option number) : Status :=
  match piValue with
  | None => {| color := "bg-white"; icon := None; label := Some "-" |}
  | Some piValue =>
      if gtb piValue one
      then {| color := green; icon := Some CheckCircle; label := Some "ACEPTABLE" |}
      else {| color := red; icon := Some AlertCircle; label := Some "NO ACEPTABLE" |}
  end.

(** The three classes of the rules table, read off a status: the check
    mark on green is a pass, the alert on red a fail, no icon no data. *)
Inductive Class : Type := PASS | FAIL | NEUTRAL.

Definition classify (s : Status) : Class :=
  match icon s with
  | Some CheckCircle => PASS
  | Some AlertCircle => FAIL
  | None => NEUTRAL
  end.

End ClassificationRules.

Module TapRowGenerator.

Record TapRow : Type := { id : string; label : string }.

(** [for (let i = tapRange; i >= 1; i--) rows.push(...)] *)
Fixpoint push_positive (i : nat) (rows : list TapRow) : list TapRow :=
  match i with
  | O => rows
  | S i' =>
      push_positive i'
        (rows ++ [{| id := "pos-" +:+ pretty i; label := "+" +:+ pretty i |}])
  end.

(** [for (let i = 1; i <= tapRange; i++) rows.push(...)], with [todo]
    iterations left. *)
Fixpoint push_negative (todo i : nat) (rows : list TapRow) : list TapRow :=
  match todo with
  | O => rows
  | S todo' =>
      push_negative todo' (S i)
        (rows ++ [{| id := "neg-" +:+ pretty i; label := "-" +:+ pretty i |}])
  end.

Definition tapRows (tapRange : nat) : list TapRow :=
  let rows := [] in
  let rows := push_positive tapRange rows in
  let rows := rows ++ [{| id := "neutral"; label := "0 (Nominal)" |}] in
  push_negative tapRange 1 rows.

End TapRowGenerator.

(* ===================================================================== *)
(** * The environment: random identifiers and the clock *)
(* ===================================================================== *)

Module World.
Import JSString.

(** [random_ids k] is what the [k]-th call of [generateId()] returns,
    [drawn] the number of calls made so far, [now] the time value of
    [new Date()] in milliseconds. *)
Record World : Type := {
  random_ids : nat -> string;
  drawn : nat;
  now : Z
}.

(** Computations that draw identifiers and read the clock. *)
Definition M (A : Type) : Type := World -> A * World.

#[global] Instance world_ret : MRet M := fun A a w => (a, w).
#[global] Instance world_bind : MBind M :=
  fun A B k m w => let '(a, w') := m w in k a w'.

(** [generateId = () => Math.random().toString(36).substr(2, 9)]: the
    text it returns is read from the environment. *)
Definition generateId : M string :=
  fun w => (random_ids w (drawn w),
            {| random_ids := random_ids w; drawn := S (drawn w); now := now w |}).

Definition Date_now : M Z := fun w => (now w, w).

(** [Array(n).fill(null).map(() => ({ id: generateId() }))] *)
Fixpoint fresh_rows (n : nat) : M (list row) :=
  match n with
  | O => mret []
  | S n' =>
      i ← generateId;
      rows ← fresh_rows n';
      mret ({[ "id" := i ]} :: rows)
  end.

Definition elapse (d : Z) (w : World) : World :=
  {| random_ids := random_ids w; drawn := drawn w; now := now w + d |}.

(** ** [Date.prototype.toISOString] *)

Definition pad (width : nat) (n : Z) : string :=
  let ds := digits n in
  zeros (width - String.length ds) +:+ ds.

(** Year, month and day of the day number [z], counted from 1970-01-01. *)
Definition civil_from_days (z : Z) : Z * Z * Z :=
  let z := z + 719468 in
  let era := z / 146097 in
  let doe := z - era * 146097 in
  let yoe := (doe - doe / 1460 + doe / 36524 - doe / 146096) / 365 in
  let doy := doe - (365 * yoe + yoe / 4 - yoe / 100) in
  let mp := (5 * doy + 2) / 153 in
  let d := doy - (153 * mp + 2) / 5 + 1 in
  let m := if mp <? 10 then mp + 3 else mp - 9 in
  (yoe + era * 400 + (if m <=? 2 then 1 else 0), m, d).

Definition toISOString (t : Z) : string :=
  let '(y, m, d) := civil_from_days (t / 86400000) in
  let ms := t mod 86400000 in
  let year :=
    if (0 <=? y) && (y <=? 9999) then pad 4 y
    else (if y <? 0 then "-" else "+") +:+ pad 6 (Z.abs y) in
  year +:+ "-" +:+ pad 2 m +:+ "-" +:+ pad 2 d +:+ "T" +:+
  pad 2 (ms / 3600000) +:+ ":" +:+ pad 2 (ms / 60000 mod 60) +:+ ":" +:+
  pad 2 (ms / 1000 mod 60) +:+ "." +:+ pad 3 (ms mod 1000) +:+ "Z".

(** [s.split(c)[0]]: the text before the first [c]. *)
Fixpoint before_first (c : ascii) (s : string) : string :=
  match s with
  | EmptyString => EmptyString
  | String a r => if Ascii.eqb a c then EmptyString else String a (before_first c r)
  end.

End World.

(* ===================================================================== *)
(** * The project document and the editor state *)
(* ===================================================================== *)

Module Project.

(** A project document of the store.  A field the document does not
    have is [None]. *)
Record t : Type := {
  id : string;
  lastModified : string;
  tapRange : option nat;
  headerInfo : option HeaderInfo;
  data : option (gmap string row);
  resistanceSettings : option ResistanceSettings;
  tgDeltaData : option (list row);
  insulationData : option (list row)
}.

End Project.

Module Editor.
Import JSString World.

(** The state of [TestSheetEditor] that the save effect depends on. *)
Record State : Type := {
  tapRange : nat;
  data : gmap string row;
  tgDeltaData : list row;
  insulationData : list row;
  headerInfo : HeaderInfo;
  resistanceSettings : ResistanceSettings
}.

Definition defaultResistanceSettings : ResistanceSettings :=
  {| measuredTemp := "20"; refTemp := "75";
     conn1Name := "Conexión 1"; conn2Name := "Conexión 2"; conn3Name := "Conexión 3" |}.

Definition emptyHeaderInfo (t : Z) : HeaderInfo :=
  {| manufacturingNumber := EmptyString; serialNumber := EmptyString; client := EmptyString;
     date := before_first "T" (toISOString t) |}.

(** The first call of the component function: the arguments
    [project.x || default] of the [useState] calls are evaluated and
    become the state. *)
Definition init (project : Project.t) : M State :=
  let tapRange :=
    match Project.tapRange project with
    | Some (S _ as n) => n
    | Some O | None => 5%nat
    end in
  let data := default ∅ (Project.data project) in
  tgDeltaData ←
    match Project.tgDeltaData project with
    | Some rows => mret rows
    | None => fresh_rows 4
    end;
  insulationData ←
    match Project.insulationData project with
    | Some rows => mret rows
    | None => fresh_rows 6
    end;
  headerInfo ←
    match Project.headerInfo project with
    | Some h => mret h
    | None => t ← Date_now; mret (emptyHeaderInfo t)
    end;
  let resistanceSettings :=
    default defaultResistanceSettings (Project.resistanceSettings project) in
  mret {| tapRange := tapRange; data := data; tgDeltaData := tgDeltaData;
          insulationData := insulationData; headerInfo := headerInfo;
          resistanceSettings := resistanceSettings |}.

(** A later call of the component function: the arguments of the
    [useState] calls are evaluated again, so that for a project without
    the tables the ids of the default rows are drawn once more and for
    one without a header the clock is read once more; [useState] drops
    the values. *)
Definition render (project : Project.t) : M unit :=
  _ ← init project; mret tt.

Definition setTapRange (n : nat) (st : State) : State :=
  {| tapRange := n; data := data st; tgDeltaData := tgDeltaData st;
     insulationData := insulationData st; headerInfo := headerInfo st;
     resistanceSettings := resistanceSettings st |}.

Definition setData (f : gmap string row -> gmap string row) (st : State) : State :=
  {| tapRange := tapRange st; data := f (data st); tgDeltaData := tgDeltaData st;
     insulationData := insulationData st; headerInfo := headerInfo st;
     resistanceSettings := resistanceSettings st |}.

Definition setTgDeltaData (f : list row -> list row) (st : State) : State :=
  {| tapRange := tapRange st; data := data st; tgDeltaData := f (tgDeltaData st);
     insulationData := insulationData st; headerInfo := headerInfo st;
     resistanceSettings := resistanceSettings st |}.

Definition setInsulationData (f : list row -> list row) (st : State) : State :=
  {| tapRange := tapRange st; data := data st; tgDeltaData := tgDeltaData st;
     insulationData := f (insulationData st); headerInfo := headerInfo st;
     resistanceSettings := resistanceSettings st |}.

Definition setHeaderInfo (h : HeaderInfo) (st : State) : State :=
  {| tapRange := tapRange st; data := data st; tgDeltaData := tgDeltaData st;
     insulationData := insulationData st; headerInfo := h;
     resistanceSettings := resistanceSettings st |}.

Definition setResistanceSettings (r : ResistanceSettings) (st : State) : State :=
  {| tapRange := tapRange st; data := data st; tgDeltaData := tgDeltaData st;
     insulationData := insulationData st; headerInfo := headerInfo st;
     resistanceSettings := r |}.

(** [{ ...prev, [id]: { ...prev[id], [field]: valWithComma } }] *)
Definition handleInputChange (id field value : string) (st : State) : State :=
  let valWithComma := replace_first "." "," value in
  setData (fun prev => <[id := <[field := valWithComma]> (default ∅ (prev !! id))]> prev) st.

(** [row.id === id ? { ...row, [field]: v } : row] *)
Definition update_row (id field v : string) (r : row) : row :=
  if bool_decide (r !! "id" = Some id) then <[field := v]> r else r.

Definition handleTgDeltaChange (id field value : string) (st : State) : State :=
  let valFormatted :=
    if bool_decide (field = "testVoltage") || bool_decide (field = "tgPercent")
       || bool_decide (field = "capacitance")
    then replace_first "." "," value else value in
  setTgDeltaData (fun prev => update_row id field valFormatted <$> prev) st.

Definition addTgDeltaRow (st : State) : M State :=
  i ← generateId;
  mret (setTgDeltaData (fun prev => prev ++ [{[ "id" := i ]}]) st).

(** [confirmed] is what [confirm('¿Borrar fila?')] answers. *)
Definition removeTgDeltaRow (confirmed : bool) (id : string) (st : State) : State :=
  if confirmed
  then setTgDeltaData (fun prev => filter (fun r : row => r !! "id" ≠ Some id) prev) st
  else st.

Definition numericFields : list string :=
  ["val30s"; "val1m"; "val2m"; "val3m"; "val4m"; "val5m"; "val6m"; "val7m";
   "val8m"; "val9m"; "val10m"].

Definition handleInsulationChange (id field value : string) (st : State) : State :=
  let valFormatted :=
    if bool_decide (field ∈ numericFields) then replace_first "." "," value else value in
  setInsulationData (fun prev => update_row id field valFormatted <$> prev) st.

Definition addInsulationRow (st : State) : M State :=
  i ← generateId;
  mret (setInsulationData (fun prev => prev ++ [{[ "id" := i ]}]) st).

Definition removeInsulationRow (confirmed : bool) (id : string) (st : State) : State :=
  if confirmed
  then setInsulationData (fun prev => filter (fun r : row => r !! "id" ≠ Some id) prev) st
  else st.

(** The inline [onChange] handlers of the header and of the resistance
    settings. *)
Inductive HeaderField : Type :=
  ManufacturingNumber | SerialNumber | Client | Date.

Definition changeHeader (f : HeaderField) (v : string) (st : State) : State :=
  let h := headerInfo st in
  setHeaderInfo
    match f with
    | ManufacturingNumber =>
        {| manufacturingNumber := v; serialNumber := serialNumber h;
           client := client h; date := date h |}
    | SerialNumber =>
        {| manufacturingNumber := manufacturingNumber h; serialNumber := v;
           client := client h; date := date h |}
    | Client =>
        {| manufacturingNumber := manufacturingNumber h; serialNumber := serialNumber h;
           client := v; date := date h |}
    | Date =>
        {| manufacturingNumber := manufacturingNumber h; serialNumber := serialNumber h;
           client := client h; date := v |}
    end st.

Inductive ResistanceField : Type :=
  MeasuredTemp | RefTemp | Conn1Name | Conn2Name | Conn3Name.

Definition changeResistance (f : ResistanceField) (v : string) (st : State) : State :=
  let r := resistanceSettings st in
  setResistanceSettings
    match f with
    | MeasuredTemp =>
        {| measuredTemp := replace_first "." "," v; refTemp := refTemp r;
           conn1Name := conn1Name r; conn2Name := conn2Name r; conn3Name := conn3Name r |}
    | RefTemp =>
        {| measuredTemp := measuredTemp r; refTemp := replace_first "." "," v;
           conn1Name := conn1Name r; conn2Name := conn2Name r; conn3Name := conn3Name r |}
    | Conn1Name =>
        {| measuredTemp := measuredTemp r; refTemp := refTemp r;
           conn1Name := v; conn2Name := conn2Name r; conn3Name := conn3Name r |}
    | Conn2Name =>
        {| measuredTemp := measuredTemp r; refTemp := refTemp r;
           conn1Name := conn1Name r; conn2Name := v; conn3Name := conn3Name r |}
    | Conn3Name =>
        {| measuredTemp := measuredTemp r; refTemp := refTemp r;
           conn1Name := conn1Name r; conn2Name := conn2Name r; conn3Name := v |}
    end st.

(** The edits of the editing session. *)
Inductive Mutation : Type :=
| SetTapRange (n : nat)
| InputChange (id field value : string)
| TgDeltaChange (id field value : string)
| AddTgDeltaRow
| RemoveTgDeltaRow (id : string)
| InsulationChange (id field value : string)
| AddInsulationRow
| RemoveInsulationRow (id : string)
| ChangeHeader (f : HeaderField) (v : string)
| ChangeResistance (f : ResistanceField) (v : string).

(** The state after an edit; a removal is one the user confirmed. *)
Definition apply (mu : Mutation) (st : State) : M State :=
  match mu with
  | SetTapRange n => mret (setTapRange n st)
  | InputChange id field value => mret (handleInputChange id field value st)
  | TgDeltaChange id field value => mret (handleTgDeltaChange id field value st)
  | AddTgDeltaRow => addTgDeltaRow st
  | RemoveTgDeltaRow id => mret (removeTgDeltaRow true id st)
  | InsulationChange id field value => mret (handleInsulationChange id field value st)
  | AddInsulationRow => addInsulationRow st
  | RemoveInsulationRow id => mret (removeInsulationRow true id st)
  | ChangeHeader f v => mret (changeHeader f v st)
  | ChangeResistance f v => mret (changeResistance f v st)
  end.

(** Whether the edit changes a dependency of the save effect: the
    objects and arrays are replaced by new ones at every edit, the tap
    range is a number and compared by value. *)
Definition changes_dependency (mu : Mutation) (st : State) : bool :=
  match mu with
  | SetTapRange n => negb (Nat.eqb n (tapRange st))
  | _ => true
  end.

End Editor.

(* ===================================================================== *)
(** * The application: creation of projects and debounced saving *)
(* ===================================================================== *)

Module App.
Import World.

(** A call [setDoc(doc(db, ..., uid, 'projects', id), project)]. *)
Record Write : Type := {
  uid : string;
  projectId : string;
  document : Project.t
}.

(** [handleCreateProject]: the calls of [setDoc] so far with the new one,
    and the project made active. *)
Definition handleCreateProject (user : option string) (writes : list Write)
    : M (list Write * option string) :=
  match user with
  | None => mret (writes, None)
  | Some u =>
      newId ← generateId;
      modified ← Date_now;
      today ← Date_now;
      tgDeltaData ← fresh_rows 4;
      insulationData ← fresh_rows 6;
      let newProject :=
        {| Project.id := newId;
           Project.lastModified := toISOString modified;
           Project.tapRange := Some 5%nat;
           Project.headerInfo :=
             Some {| manufacturingNumber := EmptyString; serialNumber := EmptyString; client := EmptyString;
                     date := before_first "T" (toISOString today) |};
           Project.data := Some ∅;
           Project.resistanceSettings :=
             Some {| measuredTemp := "20"; refTemp := "75";
                     conn1Name := "Conexión 1"; conn2Name := "Conexión 2";
                     conn3Name := "Conexión 3" |};
           Project.tgDeltaData := Some tgDeltaData;
           Project.insulationData := Some insulationData |} in
      mret (writes ++ [{| uid := u; projectId := newId; document := newProject |}],
            Some newId)
  end.

(** [handleUpdateProject] *)
Definition handleUpdateProject (user : option string) (project : Project.t)
    (writes : list Write) : list Write :=
  match user with
  | None => writes
  | Some u => writes ++ [{| uid := u; projectId := Project.id project; document := project |}]
  end.

(** An open editor: the signed-in user, the projects passed to
    [onUpdate] and the calls of [setDoc] made so far, the environment, the
    [project] prop, the editor state, the saving flag, the pending
    timeout with the time it is due and the project its callback saves,
    and the number of calls of [setDoc] by [onUpdate] that the store has
    not answered yet. *)
Record Session : Type := {
  user : option string;
  updates : list Project.t;
  writes : list Write;
  world : World;
  project : Project.t;
  state : Editor.State;
  isSaving : bool;
  timeoutId : option (Z * Project.t);
  inflight : nat
}.

(** [{ ...project, tapRange, data, ..., lastModified }] at time [t]. *)
Definition updatedProject (project : Project.t) (st : Editor.State) (t : Z) : Project.t :=
  {| Project.id := Project.id project;
     Project.lastModified := toISOString t;
     Project.tapRange := Some (Editor.tapRange st);
     Project.headerInfo := Some (Editor.headerInfo st);
     Project.data := Some (Editor.data st);
     Project.resistanceSettings := Some (Editor.resistanceSettings st);
     Project.tgDeltaData := Some (Editor.tgDeltaData st);
     Project.insulationData := Some (Editor.insulationData st) |}.

(** The call of the component function that follows the call of a state
    setter. *)
Definition rerender (s : Session) : Session :=
  {| user := user s; updates := updates s; writes := writes s;
     world := (Editor.render (project s) (world s)).2;
     project := project s; state := state s; isSaving := isSaving s;
     timeoutId := timeoutId s; inflight := inflight s |}.

(** A setter of the editor state was called with the state [st], in the
    environment [w] its handler left. *)
Definition set_state (st : Editor.State) (w : World) (s : Session) : Session :=
  rerender
    {| user := user s; updates := updates s; writes := writes s; world := w;
       project := project s; state := st; isSaving := isSaving s;
       timeoutId := timeoutId s; inflight := inflight s |}.

(** The save effect, run after a render in which a dependency changed:
    the clean-up of the previous run clears its timeout, then
    [setIsSaving(true)] is called and a timeout of one second is
    started for the project as it is now. *)
Definition save_effect (s : Session) : Session :=
  rerender
    {| user := user s; updates := updates s; writes := writes s; world := world s;
       project := project s; state := state s; isSaving := true;
       timeoutId :=
         Some (now (world s) + 1000,
               updatedProject (project s) (state s) (now (world s)));
       inflight := inflight s |}.

(** The promise of [onUpdate] is settled: [.then(() => setIsSaving(false))]
    runs. *)
Definition promise_settled (s : Session) : Session :=
  rerender
    {| user := user s; updates := updates s; writes := writes s; world := world s;
       project := project s; state := state s; isSaving := false;
       timeoutId := timeoutId s; inflight := inflight s |}.

(** The timeout callback [onUpdate(updatedProject).then(...)], where
    [onUpdate] is [handleUpdateProject].  Without a user
    [handleUpdateProject] returns at once and its promise is settled
    before anything else happens; with a user it awaits [setDoc], and
    its promise is settled when the store answers. *)
Definition timeout_fires (p : Project.t) (s : Session) : Session :=
  let called :=
    {| user := user s; updates := updates s ++ [p];
       writes := handleUpdateProject (user s) p (writes s);
       world := world s; project := project s; state := state s;
       isSaving := isSaving s; timeoutId := None;
       inflight := match user s with
                   | Some _ => S (inflight s)
                   | None => inflight s
                   end |} in
  match user s with
  | Some _ => called
  | None => promise_settled called
  end.

(** The store answers a call of [setDoc], with success or with an error
    that [handleUpdateProject] catches: its promise is settled. *)
Definition settle (s : Session) : Session :=
  match inflight s with
  | O => s
  | S n =>
      promise_settled
        {| user := user s; updates := updates s; writes := writes s;
           world := world s; project := project s; state := state s;
           isSaving := isSaving s; timeoutId := timeoutId s; inflight := n |}
  end.

Definition advance (d : Z) (s : Session) : Session :=
  {| user := user s; updates := updates s; writes := writes s;
     world := elapse d (world s); project := project s; state := state s;
     isSaving := isSaving s; timeoutId := timeoutId s; inflight := inflight s |}.

(** An edit, a pause, the answer of the store to a call of [setDoc], or
    a call of the component function that no setter of the editor
    caused (as when the parent renders again). *)
Inductive Event : Type :=
| Mutate (mu : Editor.Mutation)
| Elapse (d : Z)
| Settle
| Render.

Definition step (ev : Event) (s : Session) : Session :=
  match ev with
  | Mutate mu =>
      let '(st, w) := Editor.apply mu (state s) (world s) in
      if Editor.changes_dependency mu (state s) then save_effect (set_state st w s)
      else set_state st w s
  | Elapse d =>
      match timeoutId s with
      | Some (due, p) =>
          if due <=? now (world s) + d then advance d (timeout_fires p s)
          else advance d s
      | None => advance d s
      end
  | Settle => settle s
  | Render => rerender s
  end.

Definition run (evs : list Event) (s : Session) : Session :=
  fold_left (fun s ev => step ev s) evs s.

(** Opening a project mounts the editor: the state is initialised by the
    first call of the component function and the save effect runs
    once. *)
Definition mount (user : option string) (writes : list Write) (project : Project.t)
    (w : World) : Session :=
  let '(st, w') := Editor.init project w in
  save_effect
    {| user := user; updates := []; writes := writes; world := w';
       project := project; state := st; isSaving := false; timeoutId := None;
       inflight := 0 |}.

(** A burst: the first edit, then further edits each after a pause. *)
Fixpoint burst_events (rest : list (Z * Editor.Mutation)) : list Event :=
  match rest with
  | [] => []
  | (gap, mu) :: rest' => Elapse gap :: Mutate mu :: burst_events rest'
  end.

(** Every pause of the burst is shorter than the quiet period and every
    edit changes a dependency of the save effect. *)
Fixpoint quiet_burst (rest : list (Z * Editor.Mutation)) (s : Session) : Prop :=
  match rest with
  | [] => True
  | (gap, mu) :: rest' =>
      0 <= gap < 1000 /\
      Editor.changes_dependency mu (state (step (Elapse gap) s)) = true /\
      quiet_burst rest' (step (Mutate mu) (step (Elapse gap) s))
  end.

End App.

(* ===================================================================== *)
(** * The spreadsheet export *)
(* ===================================================================== *)

Module ExportMapper.
Import JSNumber JSString NumericFormat DerivationEngine ClassificationRules.

(** A cell of a sheet: a text, or [None] for [undefined]. *)
Abbreviation cell := (option string).

#[global] Instance outcome_ret : MRet outcome := fun A a => Returns a.
#[global] Instance outcome_bind : MBind outcome :=
  fun A B k m => match m with Returns a => k a | RangeError => RangeError end.

(** [v !== null ? formatNum(v, decimals) : e] with [e] the empty text. *)
Definition formatted (v : option number) (decimals : option Z) : outcome cell :=
  match v with
  | Some _ => s ← formatNum v decimals; mret (Some s)
  | None => mret (Some EmptyString)
  end.

(** The rows of a sheet, each pushed by the callback of a [forEach]. *)
Fixpoint pushed {A : Type} (f : A -> outcome (list cell)) (items : list A)
    (sheet : list (list cell)) : outcome (list (list cell)) :=
  match items with
  | [] => mret sheet
  | item :: items' => r ← f item; pushed f items' (sheet ++ [r])
  end.

Definition ttrRow (data : gmap string row) (r : TapRowGenerator.TapRow)
    : outcome (list cell) :=
  let d := default ∅ (data !! TapRowGenerator.id r) in
  let devA := calculateDeviation (d !! "phaseA") (d !! "ratedRatio") in
  let devB := calculateDeviation (d !! "phaseB") (d !! "ratedRatio") in
  let devC := calculateDeviation (d !! "phaseC") (d !! "ratedRatio") in
  a ← formatted devA None;
  b ← formatted devB None;
  c ← formatted devC None;
  mret [Some (TapRowGenerator.label r); d !! "ratioPercent"; d !! "ratedRatio";
        d !! "phaseA"; a; d !! "phaseB"; b; d !! "phaseC"; c].

Definition ttrData (st : Editor.State) : outcome (list (list cell)) :=
  let h := Editor.headerInfo st in
  pushed (ttrRow (Editor.data st)) (TapRowGenerator.tapRows (Editor.tapRange st))
    [ [Some "PLANILLA DE ENSAYOS - TTR"];
      [Some "Cliente:"; Some (client h); Some "Fecha:"; Some (date h)];
      [Some "Nº Serie:"; Some (serialNumber h); Some "Nº Fab:"; Some (manufacturingNumber h)];
      [];
      [Some "Tap"; Some "Ratio %"; Some "Rated Ratio"; Some "Ph A Meas"; Some "Dev A %";
       Some "Ph B Meas"; Some "Dev B %"; Some "Ph C Meas"; Some "Dev C %"] ].

Definition resRow (settings : ResistanceSettings) (data : gmap string row)
    (r : TapRowGenerator.TapRow) : outcome (list cell) :=
  let d := default ∅ (data !! TapRowGenerator.id r) in
  let c1 := calculateResistanceCorrection settings (d !! "resConn1Meas") in
  let c2 := calculateResistanceCorrection settings (d !! "resConn2Meas") in
  let c3 := calculateResistanceCorrection settings (d !! "resConn3Meas") in
  x1 ← formatted c1 (Some 4);
  x2 ← formatted c2 (Some 4);
  x3 ← formatted c3 (Some 4);
  mret [Some (TapRowGenerator.label r); d !! "resConn1Meas"; x1;
        d !! "resConn2Meas"; x2; d !! "resConn3Meas"; x3].

Definition resData (st : Editor.State) : outcome (list (list cell)) :=
  let s := Editor.resistanceSettings st in
  pushed (resRow s (Editor.data st)) (TapRowGenerator.tapRows (Editor.tapRange st))
    [ [Some "PLANILLA DE ENSAYOS - RESISTENCIA"];
      [];
      [Some "Tap";
       Some (conn1Name s +:+ " (Meas)"); Some (conn1Name s +:+ " (Corr)");
       Some (conn2Name s +:+ " (Meas)"); Some (conn2Name s +:+ " (Corr)");
       Some (conn3Name s +:+ " (Meas)"); Some (conn3Name s +:+ " (Corr)")] ].

Definition tgRow (r : row) : outcome (list cell) :=
  mret [r !! "mode"; r !! "injection"; r !! "measurement"; r !! "guard";
        r !! "testVoltage"; r !! "tgPercent"; r !! "capacitance"].

Definition tgData (st : Editor.State) : outcome (list (list cell)) :=
  pushed tgRow (Editor.tgDeltaData st)
    [ [Some "PLANILLA DE ENSAYOS - TANGENTE DELTA"];
      [];
      [Some "Modo"; Some "Inyección"; Some "Medición"; Some "Guarda";
       Some "Tensión Ensayo"; Some "TG (%)"; Some "Cx (pF)"] ].

Definition insRow (r : row) : outcome (list cell) :=
  let dar := calculateDAR (r !! "val1m") (r !! "val30s") in
  let pi := calculatePI (r !! "val10m") (r !! "val1m") in
  let statusIP := getStatusIP pi in
  d ← formatted dar (Some 2);
  p ← formatted pi (Some 2);
  mret [r !! "injection"; r !! "measurement"; r !! "guard";
        r !! "val30s"; r !! "val1m"; r !! "val2m"; r !! "val3m"; r !! "val4m";
        r !! "val5m"; r !! "val6m"; r !! "val7m"; r !! "val8m"; r !! "val9m";
        r !! "val10m"; d; p; ClassificationRules.label statusIP].

(** The double quote of the header of the 30 s column. *)
Definition seconds_mark : string := String (ascii_of_nat 34) EmptyString.

Definition insData (st : Editor.State) : outcome (list (list cell)) :=
  pushed insRow (Editor.insulationData st)
    [ [Some "PLANILLA DE ENSAYOS - RESISTENCIA DE AISLACIÓN (GΩ)"];
      [];
      [Some "Inyección"; Some "Medición"; Some "Guarda"; Some ("30" +:+ seconds_mark);
       Some "1'"; Some "2'"; Some "3'"; Some "4'"; Some "5'"; Some "6'"; Some "7'";
       Some "8'"; Some "9'"; Some "10'"; Some "RAD (DAR)"; Some "IP (PI)";
       Some "Estado IP"] ].

Record Sheet : Type := { name : string; cells : list (list cell) }.

Record Workbook : Type := { sheets : list Sheet; fileName : string }.

(** [handleDownloadExcel]: [None] when the spreadsheet library is not
    loaded yet and the export only shows an alert. *)
Definition handleDownloadExcel (xlsxLoaded : bool) (st : Editor.State)
    : outcome (option Workbook) :=
  if negb xlsxLoaded then mret None
  else
    ttr ← ttrData st;
    res ← resData st;
    tg ← tgData st;
    ins ← insData st;
    let serial := serialNumber (Editor.headerInfo st) in
    mret (Some {| sheets := [ {| name := "TTR"; cells := ttr |};
                              {| name := "Resistencia"; cells := res |};
                              {| name := "TG Delta"; cells := tg |};
                              {| name := "Aislación"; cells := ins |} ];
                  fileName := "Ensayo_" +:+
                              (match serial with EmptyString => "SN" | _ => serial end)
                              +:+ ".xlsx" |}).

End ExportMapper.

(* ===================================================================== *)
(** * The dashboard: deleting a project *)
(* ===================================================================== *)

Module Dashboard.

(** A call [deleteDoc(doc(db, ..., uid, 'projects', id))]. *)
Record Deletion : Type := { owner : string; deleted : string }.

(** [handleDeleteProject]: the calls of [deleteDoc] so far with the new
    one, and the project that is active afterwards.  The call is one the
    store accepts; the active project is unset only then. *)
Definition handleDeleteProject (user : option string) (id : string)
    (deletions : list Deletion) (activeProjectId : option string)
    : list Deletion * option string :=
  match user with
  | None => (deletions, activeProjectId)
  | Some u =>
      (deletions ++ [{| owner := u; deleted := id |}],
       if bool_decide (activeProjectId = Some id) then None else activeProjectId)
  end.

(** The state of [ProjectDashboard] and of the application around it:
    the project whose deletion waits for a second click, the time at
    which the pending timeout clears it, the calls of [deleteDoc] and
    the clock. *)
Record State : Type := {
  user : option string;
  activeProjectId : option string;
  confirmDeleteId : option string;
  timer : option Z;
  deletions : list Deletion;
  now : Z
}.

(** The effect on [confirmDeleteId]: its clean-up clears the timeout of
    the previous run, and a truthy id starts one of three seconds. *)
Definition confirm_effect (c : option string) (s : State) : State :=
  {| user := user s; activeProjectId := activeProjectId s; confirmDeleteId := c;
     timer := match c with
              | Some (String _ _) => Some (now s + 3000)
              | Some EmptyString | None => None
              end;
     deletions := deletions s; now := now s |}.

(** The click on the delete button of the card of project [id]. *)
Definition click (id : string) (s : State) : State :=
  if bool_decide (confirmDeleteId s = Some id) then
    let '(ds, active) := handleDeleteProject (user s) id (deletions s) (activeProjectId s) in
    {| user := user s; activeProjectId := active; confirmDeleteId := confirmDeleteId s;
       timer := timer s; deletions := ds; now := now s |}
  else confirm_effect (Some id) s.

Definition elapse (d : Z) (s : State) : State :=
  let s' :=
    match timer s with
    | Some due => if due <=? now s + d then confirm_effect None s else s
    | None => s
    end in
  {| user := user s'; activeProjectId := activeProjectId s';
     confirmDeleteId := confirmDeleteId s'; timer := timer s';
     deletions := deletions s'; now := now s + d |}.

Inductive Event : Type :=
| Click (id : string)
| Elapse (d : Z).

Definition step (ev : Event) (s : State) : State :=
  match ev with
  | Click id => click id s
  | Elapse d => elapse d s
  end.

Definition run (evs : list Event) (s : State) : State :=
  fold_left (fun s ev => step ev s) evs s.

End Dashboard.

(* ===================================================================== *)
(** * Notions of the properties of the handlers *)
(* ===================================================================== *)

Module Notions.
Import JSString.

(** The field [f] of the tap row [i] of the tap data. *)
Definition tap_field (data : gmap string row) (i f : string) : option string :=
  data !! i ≫= fun r => r !! f.

(** The ids of the rows of a table, in order. *)
Definition row_ids (rows : list row) : list (option string) :=
  (fun r : row => r !! "id") <$> rows.

(** What [handleTgDeltaChange] stores for a value typed into a field. *)
Definition tg_stored (f v : string) : string :=
  if bool_decide (f ∈ ["testVoltage"; "tgPercent"; "capacitance"])
  then replace_first "." "," v else v.

(** What [handleInsulationChange] stores for a value typed into a field. *)
Definition insulation_stored (f v : string) : string :=
  if bool_decide (f ∈ Editor.numericFields) then replace_first "." "," v else v.

(** The edit does not write the field [id] of a row, and a row it adds
    gets an id that no row of its table has. *)
Definition keeps_ids (mu : Editor.Mutation) (st : Editor.State) (w : World.World) : Prop :=
  match mu with
  | Editor.TgDeltaChange _ f _ | Editor.InsulationChange _ f _ => f <> "id"
  | Editor.AddTgDeltaRow =>
      Some (World.random_ids w (World.drawn w)) ∉ row_ids (Editor.tgDeltaData st)
  | Editor.AddInsulationRow =>
      Some (World.random_ids w (World.drawn w)) ∉ row_ids (Editor.insulationData st)
  | _ => True
  end.

(** No pause of the run goes back in time. *)
Definition forward (evs : list App.Event) : Prop :=
  Forall (fun ev => match ev with App.Elapse d => 0 <= d | _ => True end) evs.

(** The editor state is on its way to the store: a save is pending, due
    within a second, and carries the state as it is now; or no save is
    pending and the last project passed to [onUpdate] carries the state
    as it is now.  In the second case the saving flag is cleared once
    the store has answered every call of [setDoc]. *)
Definition in_step (s : App.Session) : Prop :=
  match App.timeoutId s with
  | Some (due, doc) =>
      exists t, doc = App.updatedProject (App.project s) (App.state s) t
                /\ due = t + 1000 /\ t <= World.now (App.world s) < due
  | None =>
      (App.inflight s = 0%nat -> App.isSaving s = false)
      /\ exists t, last (App.updates s)
                   = Some (App.updatedProject (App.project s) (App.state s) t)
  end.

(** The call of [setDoc] that saves [doc] for the user [u]. *)
Definition write_of (u : string) (doc : Project.t) : App.Write :=
  {| App.uid := u; App.projectId := Project.id doc; App.document := doc |}.

(** Edits each followed by a pause. *)
Fixpoint spaced_events (edits : list (Editor.Mutation * Z)) : list App.Event :=
  match edits with
  | [] => []
  | (mu, d) :: edits' => App.Mutate mu :: App.Elapse d :: spaced_events edits'
  end.

(** Every edit changes a dependency of the save effect and is followed
    by a pause of a second or more. *)
Fixpoint spaced (edits : list (Editor.Mutation * Z)) (s : App.Session) : Prop :=
  match edits with
  | [] => True
  | (mu, d) :: edits' =>
      Editor.changes_dependency mu (App.state s) = true /\ 1000 <= d /\
      spaced edits' (App.step (App.Elapse d) (App.step (App.Mutate mu) s))
  end.

(** No pause of the run of the dashboard goes back in time. *)
Definition forward_clicks (evs : list Dashboard.Event) : Prop :=
  Forall (fun ev => match ev with Dashboard.Elapse d => 0 <= d | Dashboard.Click _ => True end)
         evs.

(** A deletion that waits for its second click has its timeout pending,
    due within three seconds; otherwise no timeout is pending. *)
Definition armed (s : Dashboard.State) : Prop :=
  match Dashboard.confirmDeleteId s with
  | Some (String _ _) =>
      exists due, Dashboard.timer s = Some due
                  /\ Dashboard.now s < due <= Dashboard.now s + 3000
  | Some EmptyString | None => Dashboard.timer s = None
  end.

(** The cell in row [r] and column [c] of a sheet. *)
Definition cell_at (sheet : list (list ExportMapper.cell)) (r c : nat)
    : option ExportMapper.cell :=
  sheet !! r ≫= fun cells => cells !! c.

(** The fields of the columns of the TG Delta sheet and of the first
    fourteen columns of the insulation sheet. *)
Definition tg_columns : list string :=
  ["mode"; "injection"; "measurement"; "guard"; "testVoltage"; "tgPercent"; "capacitance"].

Definition insulation_columns : list string :=
  ["injection"; "measurement"; "guard"] ++ Editor.numericFields.

(** The columns of the TTR sheet that show a stored field, each with
    the column of the deviation derived from it, if any. *)
Definition ttr_columns : list (string * nat * option nat) :=
  [("ratioPercent", 1, None); ("ratedRatio", 2, None); ("phaseA", 3, Some 4);
   ("phaseB", 5, Some 6); ("phaseC", 7, Some 8)]%nat.

(** The lengths of the rows of a sheet after its [n] first rows. *)
Definition widths (n : nat) (s : ExportMapper.Sheet) : list nat :=
  length <$> drop n (ExportMapper.cells s).
End Notions.

(* ===================================================================== *)
(** * Vocabulary of the specification *)
(* ===================================================================== *)

Module Spec.
Import JSNumber JSString NumericFormat World.

(** The text does not parse: [parseNum] gives [NaN]. *)
Definition unparsable (val : field) : Prop := isNaN (parseNum val) = true.

(** The text parses to zero, of either sign. *)
Definition parses_to_zero (val : field) : Prop :=
  exists s, parseNum val = S754_zero s.

(** The number is a zero or a finite non-zero double. *)
Definition finite (x : number) : Prop := isFinite x = true.


(** The rows of the taps [+k] and [-k] and of the nominal tap. *)
Definition positive_row (k : nat) : TapRowGenerator.TapRow :=
  {| TapRowGenerator.id := "pos-" +:+ pretty k; TapRowGenerator.label := "+" +:+ pretty k |}.

Definition negative_row (k : nat) : TapRowGenerator.TapRow :=
  {| TapRowGenerator.id := "neg-" +:+ pretty k; TapRowGenerator.label := "-" +:+ pretty k |}.

Definition neutral_row : TapRowGenerator.TapRow := {| TapRowGenerator.id := "neutral"; TapRowGenerator.label := "0 (Nominal)" |}.

(** The ids of the rows shown for a tap range. *)
Definition visible_ids (tapRange : nat) : list string :=
  TapRowGenerator.id <$> TapRowGenerator.tapRows tapRange.

(** A run of edits, each applied to the state the previous one left. *)
Fixpoint apply_all (edits : list Editor.Mutation) (st : Editor.State) : M Editor.State :=
  match edits with
  | [] => mret st
  | mu :: edits' => st' ← Editor.apply mu st; apply_all edits' st'
  end.

(** The edit writes no tap field, or a field of a row that is shown for
    the tap range. *)
Definition edits_visible_row (tapRange : nat) (mu : Editor.Mutation) : Prop :=
  match mu with
  | Editor.InputChange i _ _ => i ∈ visible_ids tapRange
  | _ => True
  end.

(** The world after [n] further calls of [generateId]. *)
Definition after_draws (n : nat) (w : World) : World :=
  {| random_ids := random_ids w; drawn := drawn w + n; now := now w |}.

(** The rows made by the calls [first], ..., [first + n - 1] of
    [generateId]: each has the field [id] and no other. *)
Definition id_rows (w : World) (first n : nat) : list row :=
  (fun k => {[ "id" := random_ids w k ]}) <$> seq first n.

(** The save effect has just run: its timeout is pending, due one second
    from now, and saves the current state. *)
Definition just_edited (s : App.Session) : Prop :=
  App.timeoutId s =
  Some (now (App.world s) + 1000, App.updatedProject (App.project s) (App.state s) (now (App.world s))).

(** The last [f] decimal digits of [n], with leading zeros. *)
Fixpoint last_digits (f : nat) (n : Z) : string :=
  match f with
  | O => EmptyString
  | S f' => last_digits f' (n / 10) +:+ String (pretty_N_char (Z.to_N (n mod 10))) EmptyString
  end.

(** The integer [n] of units of [10 ^ -d] written in fixed point with [d]
    decimals after a comma, behind a minus sign when [neg]. *)
Definition rendered (neg : bool) (n d : Z) : string :=
  (if neg then "-" else EmptyString) +:+ digits (n / 10 ^ d) +:+
  (if d =? 0 then EmptyString else "," +:+ last_digits (Z.to_nat d) n).

(** [n] is [m * 2 ^ e * 10 ^ d] rounded to the nearest integer, upwards
    when it is half way. *)
Definition rounds_to (m : positive) (e d n : Z) : Prop :=
  let num := Z.pos m * 10 ^ d * 2 ^ Z.max e 0 in
  let den := 2 ^ Z.max (- e) 0 in
  - den < 2 * (n * den - num) <= den.

Fixpoint has_char (c : ascii) (s : string) : bool :=
  match s with
  | EmptyString => false
  | String a r => Ascii.eqb a c || has_char c r
  end.

End Spec.

(* ===================================================================== *)
(** * Numeric format and derivation engine *)
(* ===================================================================== *)

Section Derivations.
Import JSNumber JSString NumericFormat DerivationEngine ClassificationRules Spec.

Lemma is_zero_spec (x : number) :
  is_zero x = true <-> exists s, x = S754_zero s.
Proof.
  split.
  - destruct x as [s | s | | s m e]; cbn; try discriminate.
    + eauto.
    + destruct s; discriminate.
    + destruct s; discriminate.
  - intros [s ->]. reflexivity.
Qed.

Lemma is_zero_false (x : number) :
  is_zero x = false <-> ~ exists s, x = S754_zero s.
Proof.
  rewrite <- is_zero_spec. destruct (is_zero x); split; intros; congruence.
Qed.

Lemma parseNum_undefined : parseNum None = S754_zero false.
Proof. reflexivity. Qed.

Lemma parseNum_empty : parseNum (Some EmptyString) = S754_zero false.
Proof. reflexivity. Qed.

Lemma parseNum_text (s : string) :
  s <> EmptyString -> parseNum (Some s) = parseFloat (replace_first "," "." s).
Proof. destruct s; [congruence | reflexivity]. Qed.

(** [parseFloat] reads the longest prefix that is a number: a text with
    such a prefix parses, whatever follows. *)
Example parsable_prefix :
  parseNum (Some "12abc") = of_Z 12 /\ parseNum (Some "1,2,3") = of_ratio false 12 10.
Proof. split; vm_compute; reflexivity. Qed.

Example unparsable_letters : unparsable (Some "abc").
Proof. reflexivity. Qed.

Example unparsable_lone_comma : unparsable (Some ",").
Proof. reflexivity. Qed.

Example parses_to_zero_blank : parses_to_zero None /\ parses_to_zero (Some EmptyString).
Proof. split; exists false; reflexivity. Qed.

Example parses_to_zero_text : parses_to_zero (Some "0") /\ parses_to_zero (Some "-0,00").
Proof. split; [exists false | exists true]; vm_compute; reflexivity. Qed.

(** The guard of the three quotients: an operand that is [NaN] or a
    divisor that is zero. *)
Lemma guard_spec (a b : field) :
  isNaN (parseNum a) || isNaN (parseNum b) || is_zero (parseNum b) = true
  <-> unparsable a \/ unparsable b \/ parses_to_zero b.
Proof.
  unfold unparsable, parses_to_zero. rewrite <- is_zero_spec.
  rewrite !orb_true_iff. tauto.
Qed.

(** C1. [calculateDeviation] returns [null] exactly when one of the two
    texts does not parse or the rated one parses to zero, and otherwise
    [((measured - rated) / rated) * 100]; for "100,5" against "100"
    this is 0.5 and for "101" against "100" it is 1. *)
Theorem calculateDeviation_spec (measured rated : field) :
  ((unparsable measured \/ unparsable rated \/ parses_to_zero rated)
     /\ calculateDeviation measured rated = None
   \/ ~ (unparsable measured \/ unparsable rated \/ parses_to_zero rated)
      /\ calculateDeviation measured rated =
         Some (mul (div (sub (parseNum measured) (parseNum rated)) (parseNum rated))
                   (of_Z 100)))
  /\ calculateDeviation (Some "100,5") (Some "100") = Some (of_ratio false 5 10)
  /\ calculateDeviation (Some "101") (Some "100") = Some (of_Z 1).
Proof.
  split; [| split; vm_compute; reflexivity].
  rewrite <- guard_spec. unfold calculateDeviation.
  destruct (isNaN (parseNum measured) || isNaN (parseNum rated)
            || is_zero (parseNum rated)) eqn:G.
  - left. split; reflexivity.
  - right. split; [congruence | reflexivity].
Qed.

(** C8. [calculateDAR] returns [null] when a text does not parse or the
    30 s reading parses to zero and otherwise [val1m / val30s];
    [calculatePI] returns [null] when a text does not parse or the
    1 min reading parses to zero and otherwise [val10m / val1m]; the
    ratio of "2" to "1" is 2 and the index of "5" to "5" is 1. *)
Theorem calculateDAR_calculatePI_spec (num den : field) :
  ((unparsable num \/ unparsable den \/ parses_to_zero den)
     /\ calculateDAR num den = None /\ calculatePI num den = None
   \/ ~ (unparsable num \/ unparsable den \/ parses_to_zero den)
      /\ calculateDAR num den = Some (div (parseNum num) (parseNum den))
      /\ calculatePI num den = Some (div (parseNum num) (parseNum den)))
  /\ calculateDAR (Some "2") (Some "1") = Some (of_Z 2)
  /\ calculateDAR (Some "2") (Some "0") = None
  /\ calculatePI (Some "5") (Some "5") = Some (of_Z 1).
Proof.
  split; [| repeat split; vm_compute; reflexivity].
  rewrite <- guard_spec. unfold calculateDAR, calculatePI.
  destruct (isNaN (parseNum num)), (isNaN (parseNum den)), (is_zero (parseNum den));
    cbn; (left; repeat split; reflexivity) || (right; repeat split; congruence).
Qed.

End Derivations.

Section ResistanceCorrection.
Import JSNumber JSString NumericFormat DerivationEngine Spec.
(** C6. [calculateResistanceCorrection] returns [null] when the measured
    value or one of the two temperatures does not parse and otherwise the
    measured value times [(235 + refTemp) / (235 + measuredTemp)], with
    the constant 235; for "10" measured at "20" and referred to "75" this
    is [10 * (235 + 75) / (235 + 20)], the double 12.156862745098039,
    shown as "12,157". *)
Theorem calculateResistanceCorrection_spec
    (settings : ResistanceSettings) (measuredVal : field) (c1 c2 c3 : string) :
  let t_meas := Some (measuredTemp settings) in
  let t_ref := Some (refTemp settings) in
  let example :=
    {| measuredTemp := "20"; refTemp := "75";
       conn1Name := c1; conn2Name := c2; conn3Name := c3 |} in
  ((unparsable measuredVal \/ unparsable t_meas \/ unparsable t_ref)
     /\ calculateResistanceCorrection settings measuredVal = None
   \/ ~ (unparsable measuredVal \/ unparsable t_meas \/ unparsable t_ref)
      /\ calculateResistanceCorrection settings measuredVal =
         Some (mul (parseNum measuredVal)
                   (div (add (of_Z 235) (parseNum t_ref))
                        (add (of_Z 235) (parseNum t_meas)))))
  /\ calculateResistanceCorrection example (Some "10") =
     Some (div (mul (of_Z 10) (add (of_Z 235) (of_Z 75))) (add (of_Z 235) (of_Z 20)))
  /\ calculateResistanceCorrection example (Some "10") =
     Some (of_ratio false 12156862745098039 (10 ^ 15))
  /\ formatNum (calculateResistanceCorrection example (Some "10")) None = Returns "12,157".
Proof.
  cbv zeta. split; [| repeat split; vm_compute; reflexivity].
  unfold unparsable, calculateResistanceCorrection.
  destruct (isNaN (parseNum measuredVal)) eqn:E1, (isNaN (parseNum (Some (measuredTemp settings)))) eqn:E2,
    (isNaN (parseNum (Some (refTemp settings)))) eqn:E3;
    cbv [orb]; (left; split; [tauto | reflexivity]) || (right; split; [intuition congruence | reflexivity]).
Qed.
End ResistanceCorrection.

(* ===================================================================== *)
(** * Double arithmetic: where [NaN] comes from *)
(* ===================================================================== *)

Section NoNaN.
Import JSNumber.

Lemma shr_1_nonneg (mrs : shr_record) : 0 <= shr_m mrs -> 0 <= shr_m (shr_1 mrs).
Proof.
  destruct mrs as [m r s]. cbn [shr_m]. intros H.
  destruct m as [| [p | p |] | p]; cbn; lia.
Qed.

Lemma iter_pos_invariant {A : Type} (P : A -> Prop) (f : A -> A) :
  (forall a, P a -> P (f a)) -> forall n a, P a -> P (SpecFloat.iter_pos f n a).
Proof.
  intros Hf. induction n as [n IH | n IH |]; intros a Ha; cbn; auto.
Qed.

Lemma shr_nonneg (mrs : shr_record) (e n : Z) :
  0 <= shr_m mrs -> 0 <= shr_m (shr mrs e n).1.
Proof.
  intros H. destruct n as [| p | p]; cbn; try assumption.
  apply (iter_pos_invariant (fun r => 0 <= shr_m r)); [apply shr_1_nonneg | assumption].
Qed.

Lemma shr_fexp_nonneg (m e : Z) (l : location) :
  0 <= m -> 0 <= shr_m (shr_fexp prec emax m e l).1.
Proof.
  intros H. unfold shr_fexp. apply shr_nonneg.
  destruct l as [| []]; exact H.
Qed.

Lemma round_nearest_even_nonneg (m : Z) (l : location) :
  0 <= m -> 0 <= round_nearest_even m l.
Proof.
  intros H. destruct l as [| []]; cbn; try lia. destruct (Z.even m); lia.
Qed.

(** Rounding a non-negative mantissa gives a zero, a finite number or an
    infinity. *)
Lemma binary_round_aux_not_NaN (s : bool) (m e : Z) (l : location) :
  0 <= m -> isNaN (binary_round_aux prec emax s m e l) = false.
Proof.
  intros H. unfold binary_round_aux.
  pose proof (shr_fexp_nonneg m e l H) as H1.
  destruct (shr_fexp prec emax m e l) as [mrs' e'] eqn:E1. cbn [fst] in H1.
  pose proof (shr_fexp_nonneg _ e' loc_Exact
                (round_nearest_even_nonneg _ (loc_of_shr_record mrs') H1)) as H2.
  destruct (shr_fexp prec emax _ e' loc_Exact) as [mrs'' e''] eqn:E2. cbn [fst] in H2.
  destruct (shr_m mrs'') as [| p | p]; [reflexivity | | lia].
  destruct (e'' <=? emax - prec); reflexivity.
Qed.

Lemma binary_normalize_not_NaN (m e : Z) (szero : bool) :
  isNaN (binary_normalize prec emax m e szero) = false.
Proof.
  destruct m as [| p | p]; cbn [binary_normalize]; [reflexivity | |];
    unfold binary_round; destruct (shl_align _ _ _) as [mz ez];
    apply binary_round_aux_not_NaN; lia.
Qed.

Lemma sub_finite_not_NaN (x y : number) :
  isFinite x = true -> isFinite y = true -> isNaN (sub x y) = false.
Proof.
  destruct x as [sx | sx | | sx mx ex], y as [sy | sy | | sy my ey];
    try discriminate; intros _ _; cbn [sub SFsub].
  - destruct sx, sy; reflexivity.
  - reflexivity.
  - reflexivity.
  - apply binary_normalize_not_NaN.
Qed.

Lemma div_by_finite_not_NaN (x : number) (s : bool) (m : positive) (e : Z) :
  isNaN x = false -> isNaN (div x (S754_finite s m e)) = false.
Proof.
  destruct x as [sx | sx | | sx mx ex]; try discriminate; intros _;
    cbn [div SFdiv]; try reflexivity.
  unfold SFdiv_core_binary.
  set (shift := _ - _ - _).
  set (m' := match shift with Z.pos _ => _ | Z0 => _ | Z.neg _ => _ end).
  assert (Hm' : 0 <= m').
  { unfold m'. destruct shift; try lia. apply Z.shiftl_nonneg. lia. }
  pose proof (Z.div_pos m' (Z.pos m) Hm' ltac:(lia)) as Hq.
  unfold Z.div in Hq. destruct (Z.div_eucl m' (Z.pos m)) as [q r].
  apply binary_round_aux_not_NaN. exact Hq.
Qed.

Lemma mul_by_finite_not_NaN (x : number) (s : bool) (m : positive) (e : Z) :
  isNaN x = false -> isNaN (mul x (S754_finite s m e)) = false.
Proof.
  destruct x as [sx | sx | | sx mx ex]; try discriminate; intros _;
    cbn [mul SFmul]; try reflexivity.
  apply binary_round_aux_not_NaN. lia.
Qed.

(** A finite number that is not a zero. *)
Lemma finite_nonzero (x : number) :
  isFinite x = true -> is_zero x = false -> exists s m e, x = S754_finite s m e.
Proof.
  destruct x as [sx | sx | | sx mx ex]; try discriminate; eauto.
Qed.

End NoNaN.

(* ===================================================================== *)
(** * What the derivations return: [null], [NaN] and the infinities *)
(* ===================================================================== *)

Section Sentinel.
Import JSNumber JSString NumericFormat DerivationEngine Spec.

Lemma deviation_finite_not_NaN (a b : field) (v : number) :
  finite (parseNum a) -> finite (parseNum b) ->
  calculateDeviation a b = Some v -> isNaN v = false.
Proof.
  unfold finite, calculateDeviation. intros Ha Hb.
  destruct (isNaN (parseNum a) || isNaN (parseNum b)); [discriminate |].
  cbv [orb]. destruct (is_zero (parseNum b)) eqn:Hz; [discriminate |].
  intros [= <-].
  destruct (finite_nonzero _ Hb Hz) as (s & m & e & Eb). rewrite Eb at 2.
  apply (mul_by_finite_not_NaN _ false 7036874417766400 (-46)).
  apply div_by_finite_not_NaN. by apply sub_finite_not_NaN.
Qed.

Lemma ratio_finite_not_NaN (a b : field) (v : number) :
  finite (parseNum a) -> finite (parseNum b) ->
  calculateDAR a b = Some v \/ calculatePI a b = Some v -> isNaN v = false.
Proof.
  unfold finite, calculateDAR, calculatePI. intros Ha Hb.
  destruct (is_zero (parseNum b)) eqn:Hz; [intros [|]; discriminate |].
  cbv [orb].
  destruct (isNaN (parseNum a)) eqn:Na; [intros [|]; discriminate |].
  destruct (isNaN (parseNum b)); [intros [|]; discriminate |].
  destruct (finite_nonzero _ Hb Hz) as (s & m & e & Eb). rewrite Eb.
  intros [[= <-] | [= <-]]; by apply div_by_finite_not_NaN.
Qed.

(** C2 (amended).  Every derivation returns [null] when an
    operand does not parse, and the deviation, the absorption ratio and
    the polarization index also when the divisor parses to zero; for
    operands that parse to finite numbers these three never return
    [NaN]. *)
Theorem derivations_guard_NaN_and_zero :
  (forall a b : field,
      unparsable a \/ unparsable b \/ parses_to_zero b ->
      calculateDeviation a b = None /\ calculateDAR a b = None /\ calculatePI a b = None)
  /\ (forall (settings : ResistanceSettings) (measuredVal : field),
         unparsable measuredVal \/ unparsable (Some (measuredTemp settings))
         \/ unparsable (Some (refTemp settings)) ->
         calculateResistanceCorrection settings measuredVal = None)
  /\ (forall (a b : field) (v : number),
         finite (parseNum a) -> finite (parseNum b) ->
         calculateDeviation a b = Some v \/ calculateDAR a b = Some v
         \/ calculatePI a b = Some v ->
         isNaN v = false).
Proof.
  split; [| split].
  - intros a b H. apply guard_spec in H.
    unfold calculateDeviation, calculateDAR, calculatePI.
    destruct (isNaN (parseNum a)), (isNaN (parseNum b)), (is_zero (parseNum b));
      cbn in H |- *; try discriminate H; by repeat split.
  - intros settings m. unfold unparsable, calculateResistanceCorrection.
    intros [-> | [-> | ->]]; [reflexivity | |].
    + by rewrite orb_true_r.
    + by rewrite orb_true_r.
  - intros a b v Ha Hb [H | H].
    + exact (deviation_finite_not_NaN a b v Ha Hb H).
    + exact (ratio_finite_not_NaN a b v Ha Hb H).
Qed.

Lemma derivations_guard_NaN_and_zero_witness :
  calculateDeviation (Some "1,5") (Some "0,0") = None
  /\ calculateResistanceCorrection Editor.defaultResistanceSettings (Some "n/a") = None
  /\ isNaN (div (parseNum (Some "2")) (parseNum (Some "3"))) = false.
Proof.
  destruct derivations_guard_NaN_and_zero as (Hq & Hr & Hf).
  split; [| split].
  - apply Hq. right. right. exists false. vm_compute. reflexivity.
  - apply Hr. left. vm_compute. reflexivity.
  - apply (Hf (Some "2") (Some "3")); [reflexivity | reflexivity |].
    right. left. reflexivity.
Defined.

(** C2 (counterexample).  The derivations do return [NaN] and the
    infinities: with the measured temperature "-235" the
    divisor of the resistance correction is zero and the function returns
    [Infinity], or [NaN] for a blank measurement; texts that parse to an
    infinity pass the guards, and a quotient of finite operands can
    overflow. *)
Lemma derivations_return_NaN_and_Infinity :
  let settings :=
    {| measuredTemp := "-235"; refTemp := "75";
       conn1Name := "Conexión 1"; conn2Name := "Conexión 2"; conn3Name := "Conexión 3" |} in
  calculateResistanceCorrection settings (Some "10") = Some (S754_infinity false)
  /\ calculateResistanceCorrection settings None = Some S754_nan
  /\ calculateDAR (Some "Infinity") (Some "Infinity") = Some S754_nan
  /\ calculatePI (Some "1e999") (Some "1") = Some (S754_infinity false)
  /\ calculateDeviation (Some "1e308") (Some "1e-308") = Some (S754_infinity false).
Proof. repeat split; vm_compute; reflexivity. Qed.

End Sentinel.

(* ===================================================================== *)
(** * Decimal digits and fixed-point rendering *)
(* ===================================================================== *)

Section Digits.
Import JSNumber JSString World Spec.

Lemma append_nil_l (s : string) : EmptyString +:+ s = s.
Proof. reflexivity. Qed.

Lemma append_cons (c : ascii) (a b : string) : String c a +:+ b = String c (a +:+ b).
Proof. reflexivity. Qed.

Lemma append_nil_r (s : string) : s +:+ EmptyString = s.
Proof.
  induction s as [| c s IH]; [reflexivity |]. by rewrite append_cons, IH.
Qed.

Lemma append_assoc (a b c : string) : (a +:+ b) +:+ c = a +:+ b +:+ c.
Proof.
  induction a as [| x a IH]; [reflexivity |]. by rewrite !append_cons, IH.
Qed.

Lemma length_append (a b : string) :
  String.length (a +:+ b) = (String.length a + String.length b)%nat.
Proof.
  induction a as [| x a IH]; [reflexivity |].
  rewrite append_cons. simpl. by rewrite IH.
Qed.

Lemma substring_all (s : string) : String.substring 0 (String.length s) s = s.
Proof. induction s as [| c s IH]; simpl; [reflexivity | by rewrite IH]. Qed.

Lemma substring_prefix (a b : string) :
  String.substring 0 (String.length a) (a +:+ b) = a.
Proof.
  induction a as [| c a IH].
  - rewrite append_nil_l. destruct b; reflexivity.
  - rewrite append_cons. simpl. by rewrite IH.
Qed.

Lemma substring_suffix (a b : string) :
  String.substring (String.length a) (String.length b) (a +:+ b) = b.
Proof.
  induction a as [| c a IH]; [apply substring_all |].
  rewrite append_cons. exact IH.
Qed.

Lemma zeros_length (n : nat) : String.length (zeros n) = n.
Proof. induction n as [| n IH]; simpl; [reflexivity | by rewrite IH]. Qed.

Lemma zeros_snoc (n : nat) : zeros n +:+ "0" = zeros (S n).
Proof.
  induction n as [| n IH]; [reflexivity |].
  change (zeros (S n)) with (String "0" (zeros n)). by rewrite append_cons, IH.
Qed.

(** ** The digits of an integer *)

Lemma pretty_N_go_app (x : N) (s : string) :
  pretty_N_go x s = pretty_N_go x EmptyString +:+ s.
Proof.
  revert s. induction (N.lt_wf_0 x) as [x _ IH]. intros s.
  destruct (decide (x = 0%N)) as [-> | Hx].
  - by rewrite !pretty_N_go_0.
  - assert (0 < x)%N as Hpos by lia.
    rewrite !(pretty_N_go_step x) by exact Hpos.
    assert (x `div` 10 < x)%N as Hlt by (apply N.div_lt; lia).
    rewrite (IH _ Hlt (String _ s)), (IH _ Hlt (String _ EmptyString)), append_assoc.
    reflexivity.
Qed.

Lemma digits_lt_10 (n : Z) :
  0 <= n < 10 -> digits n = String (pretty_N_char (Z.to_N n)) EmptyString.
Proof.
  intros [Hlo Hhi]. destruct n as [| p | p]; [reflexivity | | lia].
  do 4 (destruct p as [p | p |]; try reflexivity; try lia).
Qed.

Lemma digits_ge_10 (n : Z) :
  10 <= n ->
  digits n = digits (n / 10) +:+ String (pretty_N_char (Z.to_N (n mod 10))) EmptyString.
Proof.
  intros H. unfold digits, pretty, pretty_N.
  assert (Z.to_N (n / 10) = (Z.to_N n `div` 10)%N) as -> by (rewrite Z2N.inj_div by lia; reflexivity).
  assert (Z.to_N (n mod 10) = (Z.to_N n `mod` 10)%N) as -> by (rewrite Z2N.inj_mod by lia; reflexivity).
  assert (10 <= Z.to_N n)%N as H' by lia.
  assert (1 <= Z.to_N n `div` 10)%N by (apply N.div_le_lower_bound; lia).
  rewrite !decide_False by lia.
  rewrite (pretty_N_go_step (Z.to_N n)) by lia. apply pretty_N_go_app.
Qed.

Lemma digits_length_pos (n : Z) : 0 <= n -> (1 <= String.length (digits n))%nat.
Proof.
  intros H. destruct (Z_lt_le_dec n 10) as [Hlt | Hge].
  - rewrite digits_lt_10 by lia. simpl. lia.
  - rewrite digits_ge_10, length_append by lia. simpl. lia.
Qed.

Lemma pretty_N_char_not (c : ascii) (x : N) :
  (Z.of_N (N_of_ascii c) < 48 \/ 57 < Z.of_N (N_of_ascii c)) ->
  Ascii.eqb (pretty_N_char x) c = false.
Proof.
  intros H. apply Ascii.eqb_neq. intros <-.
  destruct x as [| p]; [simpl in H; lia |].
  do 4 (destruct p as [p | p |]; try (simpl in H; lia)).
Qed.

Lemma has_char_append (c : ascii) (a b : string) :
  has_char c (a +:+ b) = has_char c a || has_char c b.
Proof.
  induction a as [| x a IH]; [reflexivity |].
  rewrite append_cons. simpl. by rewrite IH, orb_assoc.
Qed.

(** No digit string holds a character that is not a digit. *)
Lemma digits_has_no (c : ascii) (n : Z) :
  (Z.of_N (N_of_ascii c) < 48 \/ 57 < Z.of_N (N_of_ascii c)) ->
  0 <= n -> has_char c (digits n) = false.
Proof.
  intros Hc. induction n as [n IH] using (well_founded_induction (Z.lt_wf 0)).
  intros Hn. destruct (Z_lt_le_dec n 10) as [Hlt | Hge].
  - rewrite digits_lt_10 by lia. simpl. by rewrite pretty_N_char_not.
  - rewrite digits_ge_10, has_char_append by lia. simpl.
    rewrite pretty_N_char_not by exact Hc.
    pose proof (Z.div_lt n 10). pose proof (Z.div_pos n 10).
    rewrite IH; [reflexivity | lia | lia].
Qed.

Lemma replace_first_skip (c d : ascii) (a b : string) :
  has_char c a = false ->
  replace_first c d (a +:+ String c b) = a +:+ String d b.
Proof.
  induction a as [| x a IH].
  - intros _. rewrite append_nil_l. simpl. by rewrite Ascii.eqb_refl.
  - intros H. simpl in H. apply orb_false_elim in H as [Hx Ha].
    rewrite !append_cons. simpl. by rewrite Hx, IH.
Qed.

Lemma replace_first_absent (c d : ascii) (a : string) :
  has_char c a = false -> replace_first c d a = a.
Proof.
  induction a as [| x a IH]; simpl; [reflexivity |].
  intros H. apply orb_false_elim in H as [Hx Ha]. by rewrite Hx, IH.
Qed.

(** ** Padding and splitting *)

Lemma last_digits_length (f : nat) (n : Z) : String.length (last_digits f n) = f.
Proof.
  revert n. induction f as [| f IH]; intros n; simpl; [reflexivity |].
  rewrite length_append, IH. simpl. lia.
Qed.

Lemma pad_step (w : nat) (n : Z) :
  0 <= n ->
  pad (S (S w)) n = pad (S w) (n / 10) +:+ String (pretty_N_char (Z.to_N (n mod 10))) EmptyString.
Proof.
  intros Hn. unfold pad. destruct (Z_lt_le_dec n 10) as [Hlt | Hge].
  - rewrite Z.div_small, Z.mod_small by lia.
    rewrite (digits_lt_10 n) by lia. change (digits 0) with "0".
    simpl String.length. replace (S w - 1)%nat with w by lia.
    replace (S (S w) - 1)%nat with (S w) by lia.
    by rewrite zeros_snoc.
  - rewrite (digits_ge_10 n) by lia. rewrite length_append. simpl String.length.
    replace (S (S w) - (String.length (digits (n / 10)) + 1))%nat
      with (S w - String.length (digits (n / 10)))%nat by lia.
    by rewrite !append_assoc.
Qed.

Lemma pad_split (f : nat) (n : Z) :
  0 <= n ->
  pad (S f) n = digits (n / 10 ^ Z.of_nat f) +:+ last_digits f n.
Proof.
  revert n. induction f as [| f IH]; intros n Hn.
  - simpl last_digits. rewrite append_nil_r. change (10 ^ Z.of_nat 0) with 1.
    rewrite Z.div_1_r. unfold pad.
    pose proof (digits_length_pos n Hn).
    by replace (1 - String.length (digits n))%nat with 0%nat by lia.
  - rewrite pad_step by exact Hn. simpl last_digits.
    rewrite IH by (apply Z.div_pos; lia).
    rewrite Nat2Z.inj_succ, Z.pow_succ_r by lia.
    rewrite Z.div_div by lia. by rewrite append_assoc.
Qed.

(** The digits of [toFixed] with a period before the last [f] of them. *)
Lemma fixed_point_split (n f : Z) :
  0 <= n -> 0 < f ->
  fixed_point n f =
  digits (n / 10 ^ f) +:+ "." +:+ last_digits (Z.to_nat f) n.
Proof.
  intros Hn Hf. unfold fixed_point.
  destruct (Z.eqb_spec f 0) as [-> | _]; [lia |].
  set (m := digits n). set (k := Z.of_nat (String.length m)).
  pose proof (digits_length_pos n Hn) as Hlen. fold m in Hlen.
  pose proof (pad_split (Z.to_nat f) n Hn) as Hpad.
  rewrite Z2Nat.id in Hpad by lia. unfold pad in Hpad. fold m in Hpad.
  set (A := digits (n / 10 ^ f)) in *. set (B := last_digits (Z.to_nat f) n) in *.
  assert (HB : String.length B = Z.to_nat f) by apply last_digits_length.
  assert (Hm' : (if k <=? f then zeros (Z.to_nat (f + 1 - k)) +:+ m else m) = A +:+ B).
  { rewrite <- Hpad. destruct (Z.leb_spec k f).
    - f_equal. f_equal. lia.
    - replace (S (Z.to_nat f) - String.length m)%nat with 0%nat by lia. reflexivity. }
  assert (Hk' : Z.to_nat ((if k <=? f then f + 1 else k) - f) = String.length A).
  { pose proof (f_equal String.length Hpad) as HL.
    rewrite !length_append, zeros_length, HB in HL.
    destruct (Z.leb_spec k f); lia. }
  rewrite Hm', Hk'.
  rewrite <- HB at 1. by rewrite substring_prefix, substring_suffix.
Qed.

Lemma nearest_scaled_nonneg (m : positive) (e f : Z) :
  0 <= f -> 0 <= nearest_scaled m e f.
Proof.
  intros Hf. unfold nearest_scaled.
  assert (0 <= 10 ^ f) by (apply Z.pow_nonneg; lia).
  destruct (Z.leb_spec 0 e).
  - assert (0 <= 2 ^ e) by (apply Z.pow_nonneg; lia). nia.
  - assert (0 < 2 ^ (- e)) by (apply Z.pow_pos_nonneg; lia).
    apply Z.div_pos; nia.
Qed.

Lemma nearest_scaled_rounds (m : positive) (e f : Z) :
  0 <= f -> rounds_to m e f (nearest_scaled m e f).
Proof.
  intros Hf. unfold rounds_to, nearest_scaled.
  destruct (Z.leb_spec 0 e) as [He | He].
  - rewrite (Z.max_l e 0), (Z.max_r (- e) 0) by lia. change (2 ^ 0) with 1.
    replace (Z.pos m * 2 ^ e * 10 ^ f * 1 - Z.pos m * 10 ^ f * 2 ^ e) with 0 by ring.
    lia.
  - rewrite (Z.max_r e 0), (Z.max_l (- e) 0) by lia. change (2 ^ 0) with 1.
    assert (0 < 2 ^ (- e)) as HD by (apply Z.pow_pos_nonneg; lia).
    set (D := 2 ^ (- e)) in *. set (num := Z.pos m * 10 ^ f).
    replace (2 * Z.pos m * 10 ^ f) with (2 * num) by (unfold num; lia).
    pose proof (Z.div_mod (2 * num + D) (2 * D) ltac:(lia)) as Hdm.
    pose proof (Z.mod_pos_bound (2 * num + D) (2 * D) ltac:(lia)) as Hr.
    nia.
Qed.

End Digits.

(* ===================================================================== *)
(** * The numeric format *)
(* ===================================================================== *)

Section Format.
Import JSNumber JSString NumericFormat DerivationEngine World Spec.

Lemma range_check (d : Z) : 0 <= d <= 100 -> (d <? 0) || (100 <? d) = false.
Proof. intros H. apply orb_false_intro; [apply Z.ltb_ge | apply Z.ltb_ge]; lia. Qed.

Lemma comma_for_period (neg : bool) (n d : Z) :
  0 <= n -> 0 <= d ->
  replace_first "." "," ((if neg then "-" else EmptyString) +:+ fixed_point n d) = rendered neg n d.
Proof.
  intros Hn Hd. unfold rendered.
  assert (Hdot : Z.of_N (N_of_ascii ".") < 48 \/ 57 < Z.of_N (N_of_ascii ".")) by (cbn; lia).
  assert (Hsign : forall a, has_char "." ((if neg then "-" else EmptyString) +:+ digits a) = false
                            \/ a < 0).
  { intros a. destruct (Z_lt_le_dec a 0); [by right | left].
    rewrite has_char_append, digits_has_no by assumption. by destruct neg. }
  destruct (Z.eqb_spec d 0) as [-> | Hne].
  - unfold fixed_point. change (0 =? 0) with true. cbv iota.
    change (10 ^ 0) with 1. rewrite Z.div_1_r, append_nil_r.
    destruct (Hsign n) as [H | H]; [| lia]. by apply replace_first_absent.
  - rewrite fixed_point_split by lia.
    assert (0 <= n / 10 ^ d) by (apply Z.div_pos; [lia | apply Z.pow_pos_nonneg; lia]).
    destruct (Hsign (n / 10 ^ d)) as [H' | H']; [| lia].
    rewrite <- append_assoc.
    change ("." +:+ ?b) with (String "." b).
    rewrite replace_first_skip by exact H'. by rewrite append_assoc.
Qed.

(** C9 (amended).  [formatNum] gives "-" for an absent value
    and for [NaN], whatever the number of decimals, which is 3 when left
    out; for a number of decimals from 0 to 100 it gives "Infinity" or
    "-Infinity" for the infinities, and for a zero or a finite number
    below [10 ^ 21] in absolute value the sign, the integer digits and,
    when there are decimals, a comma and exactly [d] of them, of the
    absolute value rounded to [d] decimals. *)
Theorem formatNum_spec :
  (forall d, formatNum None d = Returns "-")
  /\ (forall d, formatNum (Some S754_nan) d = Returns "-")
  /\ (forall x, formatNum x None = formatNum x (Some 3))
  /\ (forall s d, 0 <= d <= 100 ->
        formatNum (Some (S754_infinity s)) (Some d)
        = Returns (if s then "-Infinity" else "Infinity"))
  /\ (forall s d, 0 <= d <= 100 ->
        formatNum (Some (S754_zero s)) (Some d) = Returns (rendered false 0 d))
  /\ (forall neg m e d, 0 <= d <= 100 -> at_least_1e21 m e = false ->
        exists n,
          rounds_to m e d n
          /\ formatNum (Some (S754_finite neg m e)) (Some d) = Returns (rendered neg n d)).
Proof.
  split; [reflexivity |]. split; [reflexivity |]. split; [reflexivity |].
  split; [| split].
  - intros s d Hd. unfold formatNum, toFixed. change (default 3 (Some d)) with d. cbn [isNaN].
    rewrite range_check by exact Hd. by destruct s.
  - intros s d Hd. unfold formatNum, toFixed. change (default 3 (Some d)) with d. cbn [isNaN].
    rewrite range_check by exact Hd.
    rewrite <- (comma_for_period false 0 d) by lia. reflexivity.
  - intros neg m e d Hd Hbig. exists (nearest_scaled m e d).
    split; [apply nearest_scaled_rounds; lia |].
    unfold formatNum, toFixed. change (default 3 (Some d)) with d. cbn [isNaN].
    rewrite range_check, Hbig by exact Hd.
    rewrite comma_for_period; [reflexivity | apply nearest_scaled_nonneg |]; lia.
Qed.

Lemma formatNum_spec_witness :
  formatNum (Some (S754_infinity true)) (Some 2) = Returns "-Infinity"
  /\ formatNum (Some (S754_zero true)) (Some 2) = Returns (rendered false 0 2)
  /\ exists n,
       rounds_to 6843705316102224 (-49) 4 n
       /\ formatNum (Some (S754_finite false 6843705316102224 (-49))) (Some 4)
          = Returns (rendered false n 4).
Proof.
  destruct formatNum_spec as (_ & _ & _ & Hinf & Hzero & Hfin).
  split; [| split].
  - apply Hinf. lia.
  - apply Hzero. lia.
  - apply Hfin; [lia | reflexivity].
Defined.

Example formatNum_examples :
  formatNum (Some (parseFloat "0.5")) None = Returns "0,500"
  /\ formatNum (Some (parseFloat "12.156862745098039")) (Some 4) = Returns "12,1569"
  /\ formatNum (Some (parseFloat "-0.0004")) None = Returns "-0,000"
  /\ formatNum (Some (parseFloat "2.5")) (Some 0) = Returns "3"
  /\ rendered false 121569 4 = "12,1569".
Proof. repeat split; vm_compute; reflexivity. Qed.

(** C9 (counterexample).  The placeholder is not given for every
    non-finite value: an infinity is not [NaN] and is formatted as
    "Infinity", as is the resistance corrected from -235 degrees; a
    number of [10 ^ 21] or more is written with an exponent, and more
    than 100 decimals are refused. *)
Lemma formatNum_infinity_not_placeholder :
  let settings :=
    {| measuredTemp := "-235"; refTemp := "75";
       conn1Name := "Conexión 1"; conn2Name := "Conexión 2"; conn3Name := "Conexión 3" |} in
  formatNum (Some (S754_infinity false)) None = Returns "Infinity"
  /\ formatNum (Some (S754_infinity true)) (Some 2) = Returns "-Infinity"
  /\ formatNum (calculateResistanceCorrection settings (Some "10")) (Some 4)
     = Returns "Infinity"
  /\ formatNum (Some (parseFloat "1e21")) None = Returns "1e+21"
  /\ formatNum (Some (parseFloat "1.5e21")) None = Returns "1,5e+21"
  /\ formatNum (Some (of_Z 1)) (Some 101) = RangeError.
Proof. repeat split; vm_compute; reflexivity. Qed.

End Format.

(* ===================================================================== *)
(** * Classification rules *)
(* ===================================================================== *)

Section Classification.
Import JSNumber JSString NumericFormat DerivationEngine ClassificationRules Spec.

Lemma half_is_one_half : half = S754_finite false (2 ^ 52) (-53).
Proof. vm_compute. reflexivity. Qed.

Lemma one_is_one : one = S754_finite false (2 ^ 52) (-52).
Proof. vm_compute. reflexivity. Qed.

Lemma getStatusTTR_class (d : number) :
  classify (getStatusTTR (Some d)) = if leb (abs d) half then PASS else FAIL.
Proof. unfold getStatusTTR. destruct (leb (abs d) half); reflexivity. Qed.

Lemma getStatusTG_class (valStr : field) :
  classify (getStatusTG valStr) =
  match valStr with
  | None | Some EmptyString => NEUTRAL
  | Some _ => if ltb (parseNum valStr) half then PASS else FAIL
  end.
Proof.
  destruct valStr as [[| c s] |]; try reflexivity.
  unfold getStatusTG. destruct (ltb _ half); reflexivity.
Qed.

Lemma getStatusIP_class (p : number) :
  classify (getStatusIP (Some p)) = if gtb p one then PASS else FAIL.
Proof. unfold getStatusIP. destruct (gtb p one); reflexivity. Qed.

(** Numeric equality excludes the strict order in both directions. *)
Lemma SFeqb_not_ltb (x y : number) :
  SFeqb x y = true -> SFltb x y = false /\ SFltb y x = false /\ SFleb x y = true.
Proof.
  unfold SFeqb, SFltb, SFleb.
  destruct x as [sx | sx | | sx mx ex], y as [sy | sy | | sy my ey]; cbn;
    try discriminate; auto;
    try (destruct sx; discriminate); try (destruct sy; discriminate);
    try (destruct sx, sy; cbn; intros; try discriminate; auto; fail).
  assert (Pos.compare_cont Eq my mx = CompOpp (Pos.compare_cont Eq mx my)) as Hm
    by (symmetry; apply Pos.compare_cont_antisym).
  rewrite (Z.compare_antisym ex ey), Hm.
  destruct sx, sy; try discriminate;
    destruct (ex ?= ey); cbn; try discriminate;
    destruct (Pos.compare_cont Eq mx my); cbn; intros; try discriminate; auto.
Qed.

(** C4. The thresholds are inclusive as the rules table has them: a
    deviation of absolute value exactly 0.5 passes, a [tgPercent] text
    that parses to exactly 0.5 fails, a polarization index of exactly 1
    fails with the label "NO ACEPTABLE", and a passing index carries the
    label "ACEPTABLE". *)
Theorem thresholds_inclusive :
  (forall measured rated d,
      calculateDeviation measured rated = Some d ->
      SFeqb (abs d) half = true ->
      classify (getStatusTTR (Some d)) = PASS)
  /\ (forall tgPercent : field,
         SFeqb (parseNum tgPercent) half = true ->
         classify (getStatusTG tgPercent) = FAIL)
  /\ (forall val10m val1m p,
         calculatePI val10m val1m = Some p ->
         SFeqb p one = true ->
         classify (getStatusIP (Some p)) = FAIL
         /\ ClassificationRules.label (getStatusIP (Some p)) = Some "NO ACEPTABLE")
  /\ (forall p,
         classify (getStatusIP p) = PASS ->
         ClassificationRules.label (getStatusIP p) = Some "ACEPTABLE").
Proof.
  split; [| split; [| split]].
  - intros _ _ d _ H. rewrite getStatusTTR_class.
    apply SFeqb_not_ltb in H as (_ & _ & H). unfold leb. rewrite H. reflexivity.
  - intros v H. rewrite getStatusTG_class.
    destruct v as [[| c s] |]; [discriminate H | | discriminate H].
    apply SFeqb_not_ltb in H as (H & _ & _). unfold ltb. rewrite H. reflexivity.
  - intros _ _ p _ H. apply SFeqb_not_ltb in H as (_ & H & _).
    unfold getStatusIP, gtb. rewrite H. split; reflexivity.
  - intros [p |]; [| discriminate].
    unfold getStatusIP. destruct (gtb p one); [reflexivity | discriminate].
Qed.
Lemma thresholds_inclusive_witness :
  classify (getStatusTTR (calculateDeviation (Some "100,5") (Some "100"))) = PASS
  /\ classify (getStatusTG (Some "0,5")) = FAIL
  /\ ClassificationRules.label (getStatusIP (calculatePI (Some "5") (Some "5")))
     = Some "NO ACEPTABLE"
  /\ ClassificationRules.label (getStatusIP (calculatePI (Some "5,01") (Some "5")))
     = Some "ACEPTABLE".
Proof.
  destruct thresholds_inclusive as (Httr & Htg & Hip & Hok).
  split; [| split; [| split]].
  - apply (Httr (Some "100,5") (Some "100")); vm_compute; reflexivity.
  - apply Htg. vm_compute. reflexivity.
  - apply (Hip (Some "5") (Some "5")); vm_compute; reflexivity.
  - apply Hok. vm_compute. reflexivity.
Defined.

End Classification.

(* ===================================================================== *)
(** * Tap row generator *)
(* ===================================================================== *)

Section TapRows.
Import TapRowGenerator Spec.
Local Open Scope nat_scope.

Lemma push_positive_spec (i : nat) (rows : list TapRow) :
  push_positive i rows = rows ++ (positive_row <$> reverse (seq 1 i)).
Proof.
  revert rows. induction i as [| i IH]; intros rows.
  - cbn. by rewrite app_nil_r.
  - cbn [push_positive]. rewrite IH, seq_S, reverse_snoc, <- app_assoc. reflexivity.
Qed.

Lemma push_negative_spec (todo i : nat) (rows : list TapRow) :
  push_negative todo i rows = rows ++ (negative_row <$> seq i todo).
Proof.
  revert i rows. induction todo as [| todo IH]; intros i rows.
  - cbn. by rewrite app_nil_r.
  - cbn [push_negative]. rewrite IH, <- app_assoc. reflexivity.
Qed.

Lemma tapRows_list (N : nat) :
  tapRows N =
  (positive_row <$> reverse (seq 1 N)) ++ neutral_row :: (negative_row <$> seq 1 N).
Proof.
  unfold tapRows. rewrite push_negative_spec, push_positive_spec, <- app_assoc.
  reflexivity.
Qed.

Lemma positive_id_inj (j k : nat) : id (positive_row j) = id (positive_row k) -> j = k.
Proof.
  unfold positive_row, negative_row, id. intros H.
  apply (inj (String.append _)) in H. by apply (inj pretty) in H.
Qed.

Lemma negative_id_inj (j k : nat) : id (negative_row j) = id (negative_row k) -> j = k.
Proof.
  unfold positive_row, negative_row, id. intros H.
  apply (inj (String.append _)) in H. by apply (inj pretty) in H.
Qed.

Lemma tapRows_ids_NoDup (N : nat) : NoDup (id <$> tapRows N).
Proof.
  rewrite tapRows_list, fmap_app, fmap_cons, <- !list_fmap_compose.
  apply NoDup_app. split; [| split].
  - apply NoDup_fmap_2_strong.
    + intros j k _ _. apply positive_id_inj.
    + rewrite reverse_Permutation. apply NoDup_seq.
  - intros x Hpos Hrest.
    apply list_elem_of_fmap in Hpos as (j & -> & _).
    apply elem_of_cons in Hrest as [H | H].
    + discriminate H.
    + apply list_elem_of_fmap in H as (k & H & _). discriminate H.
  - apply NoDup_cons. split.
    + intros H. apply list_elem_of_fmap in H as (k & H & _). discriminate H.
    + apply NoDup_fmap_2_strong.
      * intros j k _ _. apply negative_id_inj.
      * apply NoDup_seq.
Qed.

(** C3. For a tap range [N] the generator yields the [2 N + 1] rows
    [+N], ..., [+1], the nominal one, [-1], ..., [-N] in this order, with
    the ids [pos-k], [neutral] and [neg-k]; the id of a tap does not
    depend on [N], and no two rows share an id. *)
Theorem tapRows_spec (N : nat) :
  tapRows N =
    (positive_row <$> reverse (seq 1 N)) ++ neutral_row :: (negative_row <$> seq 1 N)
  /\ length (tapRows N) = 2 * N + 1
  /\ tapRows N !! N = Some neutral_row
  /\ (forall k, 1 <= k <= N ->
        tapRows N !! (N - k) = Some (positive_row k)
        /\ tapRows N !! (N + k) = Some (negative_row k))
  /\ NoDup (id <$> tapRows N).
Proof.
  split; [apply tapRows_list |].
  split; [| split; [| split; [| apply tapRows_ids_NoDup]]]; rewrite tapRows_list.
  - rewrite length_app, length_cons, !length_fmap, length_reverse, !length_seq. lia.
  - rewrite lookup_app_r; rewrite length_fmap, length_reverse, length_seq; [| lia].
    by rewrite Nat.sub_diag.
  - intros k Hk. split.
    + rewrite lookup_app_l by (rewrite length_fmap, length_reverse, length_seq; lia).
      rewrite list_lookup_fmap, reverse_lookup by (rewrite length_seq; lia).
      rewrite length_seq, lookup_seq_lt by lia. cbn. f_equal. f_equal. lia.
    + rewrite lookup_app_r; rewrite length_fmap, length_reverse, length_seq; [| lia].
      rewrite lookup_cons_ne_0, list_lookup_fmap, lookup_seq_lt by lia.
      cbn. f_equal. f_equal. lia.
Qed.

Lemma tapRows_spec_witness :
  tapRows 2 !! (2 - 1) = Some (positive_row 1)
  /\ tapRows 2 !! (2 + 1) = Some (negative_row 1).
Proof.
  destruct (tapRows_spec 2) as (_ & _ & _ & H & _). apply (H 1). lia.
Defined.

Example tapRows_2 :
  tapRows 2 =
  [ {| id := "pos-2"; label := "+2" |}; {| id := "pos-1"; label := "+1" |};
    {| id := "neutral"; label := "0 (Nominal)" |};
    {| id := "neg-1"; label := "-1" |}; {| id := "neg-2"; label := "-2" |} ].
Proof. reflexivity. Qed.

Example tapRows_0 : tapRows 0 = [ {| id := "neutral"; label := "0 (Nominal)" |} ].
Proof. reflexivity. Qed.

End TapRows.

(* ===================================================================== *)
(** * Project model: the tap range and the tap data *)
(* ===================================================================== *)

Section TapRange.
Import World Editor Spec.

Lemma apply_data_other (mu : Mutation) (st : State) (w : World) (i : string) :
  (forall f v, mu <> InputChange i f v) ->
  data (apply mu st w).1 !! i = data st !! i.
Proof.
  intros Hmu. destruct mu; try reflexivity.
  cbn. apply lookup_insert_ne. intros ->. by eapply Hmu.
Qed.

Lemma apply_all_data_other (edits : list Mutation) (st : State) (w : World) (i : string) :
  Forall (fun mu => forall f v, mu <> InputChange i f v) edits ->
  data (apply_all edits st w).1 !! i = data st !! i.
Proof.
  intros H. revert st w. induction H as [| mu edits Hmu _ IH]; intros st w.
  - reflexivity.
  - cbn [apply_all]. unfold mbind, world_bind.
    destruct (apply mu st w) as [st' w'] eqn:E.
    rewrite IH. change st' with (st', w').1. rewrite <- E. by apply apply_data_other.
Qed.

(** C7. Changing the tap range leaves the tap data as it is, whatever the
    new range: the entries of the rows that are no longer shown stay in
    the mapping and in the project that is saved, and when the range is
    lowered and then raised again, with edits of the rows shown in
    between, every row that comes back has the fields it had. *)
Theorem setTapRange_keeps_data (st : State) (n : nat) :
  data (setTapRange n st) = data st
  /\ tapRange (setTapRange n st) = n
  /\ (forall p t, Project.data (App.updatedProject p (setTapRange n st) t) = Some (data st))
  /\ (forall lo, data (setTapRange n (setTapRange lo st)) = data st)
  /\ (forall lo edits w i,
        i ∈ visible_ids n ->
        i ∉ visible_ids lo ->
        Forall (edits_visible_row lo) edits ->
        data (setTapRange n (apply_all edits (setTapRange lo st) w).1) !! i
        = data st !! i).
Proof.
  repeat split.
  intros lo edits w i _ Hout Hedits.
  change (data (setTapRange n ?s)) with (data s).
  rewrite apply_all_data_other; [reflexivity |].
  eapply Forall_impl; [exact Hedits |].
  intros mu Hmu f v ->. cbn in Hmu. contradiction.
Qed.

Lemma setTapRange_keeps_data_witness :
  let w := {| random_ids := fun _ => "a"; drawn := 0; now := 0 |} in
  let st := {| tapRange := 5; data := {[ "pos-5" := {[ "phaseA" := "1,5" ]} ]};
               tgDeltaData := []; insulationData := [];
               headerInfo := emptyHeaderInfo 0;
               resistanceSettings := defaultResistanceSettings |} in
  data (setTapRange 5
          (apply_all [InputChange "pos-1" "phaseA" "2.5"; AddTgDeltaRow]
             (setTapRange 2 st) w).1) !! "pos-5"
  = Some {[ "phaseA" := "1,5" ]}.
Proof.
  intros w st.
  destruct (setTapRange_keeps_data st 5) as (_ & _ & _ & _ & H).
  rewrite (H 2%nat).
  - reflexivity.
  - apply (bool_decide_unpack _). vm_compute. exact I.
  - apply (bool_decide_unpack _). vm_compute. exact I.
  - repeat constructor.
Defined.

End TapRange.

(* ===================================================================== *)
(** * Creation of projects *)
(* ===================================================================== *)

Section Creation.
Import World App Spec.
Local Open Scope nat_scope.

Lemma after_draws_0 (w : World) : after_draws 0 w = w.
Proof. destruct w as [r d t]. unfold after_draws. cbn. by rewrite Nat.add_0_r. Qed.

Lemma generateId_spec (w : World) :
  generateId w = (random_ids w (drawn w), after_draws 1 w).
Proof. unfold generateId, after_draws. by rewrite Nat.add_1_r. Qed.

Lemma fresh_rows_spec (n : nat) (w : World) :
  fresh_rows n w = (id_rows w (drawn w) n, after_draws n w).
Proof.
  revert w. induction n as [| n IH]; intros w.
  - cbn. by rewrite after_draws_0.
  - cbn [fresh_rows]. unfold mbind, world_bind. rewrite generateId_spec, IH.
    unfold mret, world_ret, id_rows, after_draws. cbn.
    f_equal; [by rewrite Nat.add_1_r | f_equal; lia].
Qed.

Lemma id_rows_length (w : World) (first n : nat) : length (id_rows w first n) = n.
Proof. unfold id_rows. by rewrite length_fmap, length_seq. Qed.

Lemma id_rows_lookup (w : World) (first n k : nat) :
  k < n -> id_rows w first n !! k = Some {[ "id" := random_ids w (first + k) ]}.
Proof.
  intros H. unfold id_rows. by rewrite list_lookup_fmap, lookup_seq_lt.
Qed.

(** C10. A project created by a signed-in user is written with four
    tangent delta rows and six insulation rows, each made of the id of
    one further call of [generateId] and of nothing else, with the empty
    tap data, the tap range 5 and the default resistance settings; the
    editor opened on it starts from these values. *)
Theorem handleCreateProject_spec (u : string) (writes : list Write) (w : World) :
  let newId := random_ids w (drawn w) in
  exists p,
    handleCreateProject (Some u) writes w =
      ((writes ++ [{| uid := u; projectId := newId; document := p |}], Some newId),
       after_draws 11 w)
    /\ Project.id p = newId
    /\ Project.tgDeltaData p = Some (id_rows w (drawn w + 1) 4)
    /\ Project.insulationData p = Some (id_rows w (drawn w + 5) 6)
    /\ length (id_rows w (drawn w + 1) 4) = 4
    /\ length (id_rows w (drawn w + 5) 6) = 6
    /\ Project.data p = Some ∅
    /\ Project.tapRange p = Some 5
    /\ Project.resistanceSettings p =
       Some {| measuredTemp := "20"; refTemp := "75"; conn1Name := "Conexión 1";
               conn2Name := "Conexión 2"; conn3Name := "Conexión 3" |}
    /\ forall w',
         Editor.init p w' =
         ({| Editor.tapRange := 5; Editor.data := ∅;
             Editor.tgDeltaData := id_rows w (drawn w + 1) 4;
             Editor.insulationData := id_rows w (drawn w + 5) 6;
             Editor.headerInfo := Editor.emptyHeaderInfo (now w);
             Editor.resistanceSettings := Editor.defaultResistanceSettings |}, w').
Proof.
  intros newId. eexists.
  unfold handleCreateProject, mbind, world_bind.
  rewrite generateId_spec. unfold Date_now. rewrite !fresh_rows_spec.
  unfold mret, world_ret. cbn [drawn after_draws random_ids now].
  split.
  - f_equal. unfold after_draws. cbn. f_equal. lia.
  - cbn. replace (drawn w + 1 + 4) with (drawn w + 5) by lia.
    repeat split; apply id_rows_length.
Qed.

Example fresh_row_fields (w : World) (first n k : nat) (r : row) :
  id_rows w first n !! k = Some r -> dom r = {[ "id" ]}.
Proof.
  unfold id_rows. rewrite list_lookup_fmap.
  destruct (seq first n !! k); intros [= <-]. apply dom_singleton_L.
Qed.

End Creation.

(* ===================================================================== *)
(** * Debounced saving *)
(* ===================================================================== *)

Section Debounce.
Import World App Spec.

Lemma run_cons (ev : Event) (evs : list Event) (s : Session) :
  run (ev :: evs) s = run evs (step ev s).
Proof. reflexivity. Qed.

(** A call of the component function draws ids and reads the clock; it
    does not move the clock. *)
Lemma init_now (p : Project.t) (w : World) : now (Editor.init p w).2 = now w.
Proof.
  unfold Editor.init, mbind, world_bind.
  destruct (Project.tgDeltaData p), (Project.insulationData p), (Project.headerInfo p);
    unfold mret, world_ret, Date_now; rewrite ?fresh_rows_spec; reflexivity.
Qed.

Lemma render_now (p : Project.t) (w : World) : now (Editor.render p w).2 = now w.
Proof.
  unfold Editor.render, mbind, world_bind. rewrite <- (init_now p w).
  by destruct (Editor.init p w).
Qed.

Lemma save_effect_just_edited (s : Session) : just_edited (save_effect s).
Proof.
  unfold just_edited, save_effect, rerender. cbn [timeoutId world project state].
  by rewrite render_now.
Qed.

Lemma mutate_just_edited (mu : Editor.Mutation) (s : Session) :
  Editor.changes_dependency mu (state s) = true ->
  just_edited (step (Mutate mu) s)
  /\ updates (step (Mutate mu) s) = updates s
  /\ writes (step (Mutate mu) s) = writes s
  /\ user (step (Mutate mu) s) = user s
  /\ project (step (Mutate mu) s) = project s
  /\ inflight (step (Mutate mu) s) = inflight s
  /\ isSaving (step (Mutate mu) s) = true.
Proof.
  intros H. unfold step. rewrite H.
  destruct (Editor.apply mu (state s) (world s)) as [st w].
  split; [apply save_effect_just_edited | by repeat split].
Qed.

Lemma pause_keeps_timeout (gap : Z) (s : Session) :
  just_edited s -> gap < 1000 ->
  step (Elapse gap) s = advance gap s.
Proof.
  unfold just_edited, step. intros -> Hgap.
  destruct (Z.leb_spec (now (world s) + 1000) (now (world s) + gap)); [lia | reflexivity].
Qed.

(** During a burst nothing is saved, and after its last edit the timeout
    of that edit is pending. *)
Lemma burst_saves_nothing (rest : list (Z * Editor.Mutation)) (s : Session) :
  just_edited s -> quiet_burst rest s ->
  just_edited (run (burst_events rest) s)
  /\ updates (run (burst_events rest) s) = updates s
  /\ writes (run (burst_events rest) s) = writes s
  /\ user (run (burst_events rest) s) = user s
  /\ project (run (burst_events rest) s) = project s
  /\ inflight (run (burst_events rest) s) = inflight s
  /\ (isSaving s = true -> isSaving (run (burst_events rest) s) = true).
Proof.
  revert s. induction rest as [| [gap mu] rest IH]; intros s Hs Hq.
  - by repeat split.
  - cbn [burst_events]. rewrite !run_cons. destruct Hq as ((_ & Hgap) & Hmu & Hq).
    destruct (mutate_just_edited mu (step (Elapse gap) s) Hmu) as (J & D & W & U & P & I & F).
    destruct (IH _ J Hq) as (J' & D' & W' & U' & P' & I' & F').
    specialize (F' F).
    split; [exact J' |]. rewrite D', W', U', P', I', F', D, W, U, P, I.
    rewrite (pause_keeps_timeout gap s Hs Hgap). by repeat split.
Qed.

Lemma quiet_period_saves (d : Z) (s : Session) :
  just_edited s -> 1000 <= d ->
  step (Elapse d) s =
  advance d (timeout_fires (updatedProject (project s) (state s) (now (world s))) s).
Proof.
  unfold just_edited, step. intros -> Hd.
  destruct (Z.leb_spec (now (world s) + 1000) (now (world s) + d)); [reflexivity | lia].
Qed.

(** The timeout callback calls [onUpdate] once; the saving flag is
    cleared at once without a user and is left as it is with one, whose
    call of [setDoc] the store has yet to answer. *)
Lemma timeout_fires_spec (p : Project.t) (s : Session) :
  updates (timeout_fires p s) = updates s ++ [p]
  /\ writes (timeout_fires p s) = handleUpdateProject (user s) p (writes s)
  /\ user (timeout_fires p s) = user s
  /\ project (timeout_fires p s) = project s
  /\ state (timeout_fires p s) = state s
  /\ timeoutId (timeout_fires p s) = None
  /\ now (world (timeout_fires p s)) = now (world s)
  /\ isSaving (timeout_fires p s) = match user s with Some _ => isSaving s | None => false end
  /\ inflight (timeout_fires p s)
     = match user s with Some _ => S (inflight s) | None => inflight s end.
Proof.
  unfold timeout_fires. destruct (user s) as [u |] eqn:Hu; cbn; rewrite ?Hu, ?render_now;
    by repeat split.
Qed.

(** The answer of the store to a call of [setDoc] clears the saving
    flag. *)
Lemma settle_clears_flag (s : Session) :
  inflight s <> 0%nat -> isSaving (step Settle s) = false.
Proof. cbn [step]. unfold settle. by destruct (inflight s). Qed.

(** C5 (amended).  A burst of edits of an open project, each less than a
    second after the one before, followed by a second without edits,
    makes exactly one call of [onUpdate]: nothing is saved during the
    burst nor in less than a second after it, whatever timeout was
    pending before it, and the one call after it carries the state after
    the last edit.  With a signed-in user this call makes exactly one
    call of [setDoc], with that state, and the saving flag stays set
    until the store answers it; without a user it makes none, and the
    flag is cleared at once. *)
Theorem burst_saves_once
    (s : Session) (mu : Editor.Mutation) (rest : list (Z * Editor.Mutation)) (d : Z) :
  Editor.changes_dependency mu (state s) = true ->
  quiet_burst rest (step (Mutate mu) s) ->
  1000 <= d ->
  let edited := run (burst_events rest) (step (Mutate mu) s) in
  let saved := step (Elapse d) edited in
  let doc := updatedProject (project s) (state edited) (now (world edited)) in
  updates edited = updates s
  /\ writes edited = writes s
  /\ (forall d', d' < 1000 ->
        updates (step (Elapse d') edited) = updates s
        /\ writes (step (Elapse d') edited) = writes s)
  /\ updates saved = updates s ++ [doc]
  /\ (forall u, user s = Some u ->
        writes saved =
        writes s ++ [{| uid := u; projectId := Project.id (project s); document := doc |}])
  /\ (user s = None -> writes saved = writes s)
  /\ Project.tapRange doc = Some (Editor.tapRange (state edited))
  /\ Project.data doc = Some (Editor.data (state edited))
  /\ Project.tgDeltaData doc = Some (Editor.tgDeltaData (state edited))
  /\ Project.insulationData doc = Some (Editor.insulationData (state edited))
  /\ Project.headerInfo doc = Some (Editor.headerInfo (state edited))
  /\ Project.resistanceSettings doc = Some (Editor.resistanceSettings (state edited))
  /\ state saved = state edited
  /\ timeoutId saved = None
  /\ isSaving edited = true
  /\ (forall u, user s = Some u ->
        isSaving saved = true /\ inflight saved = S (inflight s)
        /\ isSaving (step Settle saved) = false)
  /\ (user s = None -> isSaving saved = false).
Proof.
  intros Hmu Hq Hd edited saved doc.
  destruct (mutate_just_edited mu s Hmu) as (J & D & W & U & P & I & F).
  destruct (burst_saves_nothing rest _ J Hq) as (J' & D' & W' & U' & P' & I' & F').
  fold edited in J', D', W', U', P', I', F'. specialize (F' F).
  assert (Hsaved : saved = advance d (timeout_fires doc edited)).
  { unfold saved, doc. rewrite (quiet_period_saves d edited J' Hd). by rewrite P', P. }
  destruct (timeout_fires_spec doc edited) as (TU & TW & _ & _ & TS & TT & _ & TF & TI).
  split; [by rewrite D', D |]. split; [by rewrite W', W |].
  split; [intros d' Hd'; rewrite (pause_keeps_timeout d' edited J' Hd'); cbn;
          by rewrite D', D, W', W |].
  split; [rewrite Hsaved; cbn [advance updates]; by rewrite TU, D', D |].
  split; [intros u Hu; rewrite Hsaved; cbn [advance writes];
          rewrite TW, U', U, Hu; cbn; by rewrite W', W |].
  split; [intros Hu; rewrite Hsaved; cbn [advance writes];
          rewrite TW, U', U, Hu; cbn; by rewrite W', W |].
  do 6 (split; [reflexivity |]).
  split; [rewrite Hsaved; cbn [advance state]; exact TS |].
  split; [rewrite Hsaved; cbn [advance timeoutId]; exact TT |].
  split; [exact F' |].
  split.
  - intros u Hu.
    assert (HI : inflight saved = S (inflight s)).
    { rewrite Hsaved. cbn [advance inflight]. by rewrite TI, U', U, Hu, I', I. }
    split; [rewrite Hsaved; cbn [advance isSaving]; by rewrite TF, U', U, Hu |].
    split; [exact HI |]. apply settle_clears_flag. by rewrite HI.
  - intros Hu. rewrite Hsaved. cbn [advance isSaving]. by rewrite TF, U', U, Hu.
Qed.

Lemma burst_saves_once_witness :
  let p := {| Project.id := "p1"; Project.lastModified := EmptyString;
              Project.tapRange := Some 5%nat; Project.headerInfo := None;
              Project.data := None; Project.resistanceSettings := None;
              Project.tgDeltaData := Some []; Project.insulationData := Some [] |} in
  let s := mount (Some "u") [] p {| random_ids := fun _ => "a"; drawn := 0; now := 0 |} in
  let events :=
    [Mutate (Editor.InputChange "pos-1" "phaseA" "1.5"); Elapse 400;
     Mutate (Editor.SetTapRange 3); Elapse 999;
     Mutate (Editor.InputChange "pos-1" "phaseA" "1.6"); Elapse 1000] in
  let doc :=
    updatedProject p
      {| Editor.tapRange := 3;
         Editor.data := {[ "pos-1" := {[ "phaseA" := "1,6" ]} ]};
         Editor.tgDeltaData := []; Editor.insulationData := [];
         Editor.headerInfo := Editor.emptyHeaderInfo 0;
         Editor.resistanceSettings := Editor.defaultResistanceSettings |}
      1399 in
  updates (run events s) = [doc]
  /\ writes (run events s) = [{| uid := "u"; projectId := "p1"; document := doc |}].
Proof.
  intros p s events doc.
  pose proof (burst_saves_once s (Editor.InputChange "pos-1" "phaseA" "1.5")
                [(400, Editor.SetTapRange 3);
                 (999, Editor.InputChange "pos-1" "phaseA" "1.6")] 1000) as H.
  destruct H as (_ & _ & _ & Hu & Hw & _).
  - reflexivity.
  - cbn [quiet_burst]. repeat split; try lia; vm_compute; reflexivity.
  - lia.
  - unfold events.
    change (run _ s) with
      (step (Elapse 1000)
         (run (burst_events [(400, Editor.SetTapRange 3);
                             (999, Editor.InputChange "pos-1" "phaseA" "1.6")])
            (step (Mutate (Editor.InputChange "pos-1" "phaseA" "1.5")) s))).
    split.
    + rewrite Hu. vm_compute. reflexivity.
    + rewrite (Hw "u" eq_refl). vm_compute. reflexivity.
Defined.

(** Without a signed-in user the timeout makes no call of [setDoc]. *)
Lemma no_user_no_write (p : Project.t) (s : Session) :
  user s = None -> writes (timeout_fires p s) = writes s.
Proof.
  intros H. destruct (timeout_fires_spec p s) as (_ & -> & _). by rewrite H.
Qed.

(** C5 (counterexample).  A burst need not be written to the store:
    [handleUpdateProject] returns at once when no user is signed in, so
    the one call of [onUpdate] after the burst of an editor that is open
    without a user makes no call of [setDoc], and the saving flag is
    cleared all the same. *)
Lemma signed_out_burst_saves_nothing :
  let p := {| Project.id := "p1"; Project.lastModified := EmptyString;
              Project.tapRange := Some 5%nat; Project.headerInfo := None;
              Project.data := None; Project.resistanceSettings := None;
              Project.tgDeltaData := Some []; Project.insulationData := Some [] |} in
  let s := mount None [] p {| random_ids := fun _ => "a"; drawn := 0; now := 0 |} in
  let saved :=
    run [Mutate (Editor.InputChange "pos-1" "phaseA" "1.5"); Elapse 400;
         Mutate (Editor.InputChange "pos-1" "phaseA" "1.6"); Elapse 1000] s in
  length (updates saved) = 1%nat
  /\ writes saved = []
  /\ timeoutId saved = None
  /\ isSaving saved = false
  /\ Editor.data (state saved) = {[ "pos-1" := {[ "phaseA" := "1,6" ]} ]}.
Proof. repeat split; vm_compute; reflexivity. Qed.

(** Two edits a second apart are saved one by one. *)
Example slow_edits_save_twice :
  let p := {| Project.id := "p1"; Project.lastModified := EmptyString;
              Project.tapRange := Some 5%nat; Project.headerInfo := None;
              Project.data := None; Project.resistanceSettings := None;
              Project.tgDeltaData := Some []; Project.insulationData := Some [] |} in
  let s := mount (Some "u") [] p {| random_ids := fun _ => "a"; drawn := 0; now := 0 |} in
  length (writes (run [Mutate (Editor.SetTapRange 3); Elapse 1000;
                       Mutate (Editor.SetTapRange 4); Elapse 1000] s)) = 2%nat.
Proof. vm_compute. reflexivity. Qed.

End Debounce.

(* ===================================================================== *)
(** * Editing the tables *)
(* ===================================================================== *)

Section Tables.
Import JSNumber JSString NumericFormat World Editor Spec Notions.

Lemma replace_first_back (v : string) :
  has_char "," v = false ->
  replace_first "," "." (replace_first "." "," v) = v.
Proof.
  induction v as [| c v IH]; [reflexivity |].
  simpl. intros H. apply orb_false_elim in H as [Hc Hv].
  destruct (Ascii.eqb_spec c ".") as [-> | Hne].
  - reflexivity.
  - simpl. rewrite Hc. f_equal. by apply IH.
Qed.

Lemma replace_first_nonempty (c d : ascii) (v : string) :
  v <> EmptyString -> replace_first c d v <> EmptyString.
Proof. destruct v as [| a v]; [congruence |]. simpl. by destruct (Ascii.eqb a c). Qed.

(** The tap row [i] as the derivations and the export read it. *)
Lemma tap_field_row (d : gmap string row) (i f : string) :
  default ∅ (d !! i) !! f = tap_field d i f.
Proof. unfold tap_field. destruct (d !! i); [reflexivity | apply lookup_empty]. Qed.

Lemma input_change_row (st : State) (i f v : string) :
  default ∅ (data (handleInputChange i f v st) !! i)
  = <[f := replace_first "." "," v]> (default ∅ (data st !! i)).
Proof. unfold handleInputChange, setData. cbn [data]. by rewrite lookup_insert_eq. Qed.

Lemma input_change_field (st : State) (i f v : string) :
  tap_field (data (handleInputChange i f v st)) i f = Some (replace_first "." "," v).
Proof. by rewrite <- tap_field_row, input_change_row, lookup_insert_eq. Qed.

Lemma input_change_other_field (st : State) (i f v g : string) :
  g <> f -> tap_field (data (handleInputChange i f v st)) i g = tap_field (data st) i g.
Proof.
  intros Hg. by rewrite <- !tap_field_row, input_change_row, lookup_insert_ne.
Qed.

(** X1. After [handleInputChange] the edited field of the edited tap row
    holds the typed value with its first period turned into a comma; the
    other fields of that row, the other rows and the rest of the editor
    state are as before. *)
Theorem handleInputChange_lookup (st : State) (i f v : string) :
  let st' := handleInputChange i f v st in
  tap_field (data st') i f = Some (replace_first "." "," v)
  /\ (forall g, g <> f -> tap_field (data st') i g = tap_field (data st) i g)
  /\ (forall j g, j <> i -> tap_field (data st') j g = tap_field (data st) j g)
  /\ tapRange st' = tapRange st
  /\ tgDeltaData st' = tgDeltaData st
  /\ insulationData st' = insulationData st
  /\ headerInfo st' = headerInfo st
  /\ resistanceSettings st' = resistanceSettings st.
Proof.
  cbv zeta. unfold handleInputChange, tap_field, setData. cbn [data tapRange tgDeltaData
    insulationData headerInfo resistanceSettings].
  split; [| split; [| split]]; [| | | by repeat split].
  - apply (input_change_field st).
  - intros g Hg. by apply (input_change_other_field st).
  - intros j g Hj. by rewrite lookup_insert_ne.
Qed.

(** X2. A value typed without a comma is read back by [parseNum] as the
    number [parseFloat] reads in what was typed: turning the period into
    a comma for storage and back for computing loses nothing. *)
Theorem typed_value_read_back (st : State) (i f v : string) :
  v <> EmptyString ->
  has_char "," v = false ->
  parseNum (tap_field (data (handleInputChange i f v st)) i f) = parseFloat v.
Proof.
  intros Hv Hc. rewrite input_change_field.
  rewrite parseNum_text by (by apply replace_first_nonempty).
  by rewrite replace_first_back.
Qed.

Lemma typed_value_read_back_witness :
  parseNum (tap_field (data (handleInputChange "pos-1" "phaseA" "100.5"
                               {| tapRange := 5; data := ∅; tgDeltaData := [];
                                  insulationData := [];
                                  headerInfo := emptyHeaderInfo 0;
                                  resistanceSettings := defaultResistanceSettings |}))
              "pos-1" "phaseA")
  = parseFloat "100.5".
Proof. apply typed_value_read_back; [discriminate | reflexivity]. Defined.

(** ** Rows found by their id *)

Lemma update_row_id (i f v : string) (r : row) :
  f <> "id" -> update_row i f v r !! "id" = r !! "id".
Proof.
  intros Hf. unfold update_row. case_bool_decide; [| reflexivity].
  by rewrite lookup_insert_ne.
Qed.

Lemma update_rows_lookup (i f v : string) (rows : list row) (k : nat) (r : row) :
  rows !! k = Some r ->
  (update_row i f v <$> rows) !! k =
  Some (if bool_decide (r !! "id" = Some i) then <[f := v]> r else r).
Proof. intros H. by rewrite list_lookup_fmap, H. Qed.

Lemma update_rows_ids (i f v : string) (rows : list row) :
  f <> "id" -> row_ids (update_row i f v <$> rows) = row_ids rows.
Proof.
  intros Hf. unfold row_ids. rewrite <- list_fmap_compose.
  apply list_fmap_ext. intros k r _. by apply update_row_id.
Qed.

Lemma update_rows_absent (i f v : string) (rows : list row) :
  Some i ∉ row_ids rows -> update_row i f v <$> rows = rows.
Proof.
  intros H. rewrite <- (list_fmap_id rows) at 2.
  apply list_fmap_ext. intros k r Hr. unfold update_row.
  case_bool_decide as Hid; [| reflexivity].
  exfalso. apply H. unfold row_ids. rewrite <- Hid.
  apply list_elem_of_fmap. exists r. split; [reflexivity |].
  by eapply list_elem_of_lookup_2.
Qed.

Lemma tg_stored_spec (f v : string) :
  (if bool_decide (f = "testVoltage") || bool_decide (f = "tgPercent")
      || bool_decide (f = "capacitance")
   then replace_first "." "," v else v) = tg_stored f v.
Proof.
  unfold tg_stored.
  destruct (decide (f = "testVoltage")) as [-> | H1]; [reflexivity |].
  destruct (decide (f = "tgPercent")) as [-> | H2]; [reflexivity |].
  destruct (decide (f = "capacitance")) as [-> | H3]; [reflexivity |].
  rewrite !bool_decide_eq_false_2 by assumption.
  rewrite bool_decide_eq_false_2; [reflexivity |].
  intros H. repeat (apply elem_of_cons in H as [H | H]; [congruence |]).
  by apply elem_of_nil in H.
Qed.

Lemma handleTgDeltaChange_cell (st : State) (i f v : string) (k : nat) (r : row) :
  tgDeltaData st !! k = Some r ->
  tgDeltaData (handleTgDeltaChange i f v st) !! k =
  Some (if bool_decide (r !! "id" = Some i) then <[f := tg_stored f v]> r else r).
Proof.
  unfold handleTgDeltaChange. rewrite tg_stored_spec. apply update_rows_lookup.
Qed.

Lemma handleInsulationChange_cell (st : State) (i f v : string) (k : nat) (r : row) :
  insulationData st !! k = Some r ->
  insulationData (handleInsulationChange i f v st) !! k =
  Some (if bool_decide (r !! "id" = Some i) then <[f := insulation_stored f v]> r else r).
Proof. unfold handleInsulationChange. apply update_rows_lookup. Qed.

(** X3. [handleTgDeltaChange] writes the field of the rows that have the
    id and of no other: the table keeps its length, its order and (for a
    field other than [id]) its ids; the three numeric fields are stored
    with the first period as a comma and every other field as typed; an
    id that no row has leaves the whole state as it is. *)
Theorem handleTgDeltaChange_rows (st : State) (i f v : string) :
  let st' := handleTgDeltaChange i f v st in
  length (tgDeltaData st') = length (tgDeltaData st)
  /\ (forall k r, tgDeltaData st !! k = Some r ->
        tgDeltaData st' !! k =
        Some (if bool_decide (r !! "id" = Some i) then <[f := tg_stored f v]> r else r))
  /\ (f <> "id" -> row_ids (tgDeltaData st') = row_ids (tgDeltaData st))
  /\ (Some i ∉ row_ids (tgDeltaData st) -> st' = st)
  /\ tapRange st' = tapRange st /\ data st' = data st
  /\ insulationData st' = insulationData st
  /\ headerInfo st' = headerInfo st /\ resistanceSettings st' = resistanceSettings st.
Proof.
  cbv zeta. unfold handleTgDeltaChange. rewrite tg_stored_spec.
  unfold setTgDeltaData. cbn [tapRange data tgDeltaData insulationData headerInfo
    resistanceSettings].
  split; [by rewrite length_fmap |].
  split; [intros k r; apply update_rows_lookup |].
  split; [apply update_rows_ids |].
  split; [| by repeat split].
  intros H. rewrite update_rows_absent by exact H. by destruct st.
Qed.

(** X4. [handleInsulationChange] does the same on the insulation table,
    where the eleven timed readings are the numeric fields. *)
Theorem handleInsulationChange_rows (st : State) (i f v : string) :
  let st' := handleInsulationChange i f v st in
  length (insulationData st') = length (insulationData st)
  /\ (forall k r, insulationData st !! k = Some r ->
        insulationData st' !! k =
        Some (if bool_decide (r !! "id" = Some i)
              then <[f := insulation_stored f v]> r else r))
  /\ (f <> "id" -> row_ids (insulationData st') = row_ids (insulationData st))
  /\ (Some i ∉ row_ids (insulationData st) -> st' = st)
  /\ tapRange st' = tapRange st /\ data st' = data st
  /\ tgDeltaData st' = tgDeltaData st
  /\ headerInfo st' = headerInfo st /\ resistanceSettings st' = resistanceSettings st.
Proof.
  cbv zeta. unfold handleInsulationChange. fold (insulation_stored f v).
  unfold setInsulationData. cbn [tapRange data tgDeltaData insulationData headerInfo
    resistanceSettings].
  split; [by rewrite length_fmap |].
  split; [intros k r; apply update_rows_lookup |].
  split; [apply update_rows_ids |].
  split; [| by repeat split].
  intros H. rewrite update_rows_absent by exact H. by destruct st.
Qed.

Lemma handleInsulationChange_rows_witness :
  let st := {| tapRange := 5; data := ∅; tgDeltaData := [];
               insulationData := [ {[ "id" := "a" ]}; {[ "id" := "b" ]} ];
               headerInfo := emptyHeaderInfo 0;
               resistanceSettings := defaultResistanceSettings |} in
  insulationData (handleInsulationChange "b" "val1m" "2.5" st) !! 1%nat
  = Some {[ "id" := "b"; "val1m" := "2,5" ]}
  /\ handleInsulationChange "c" "val1m" "2.5" st = st.
Proof.
  intros st. destruct (handleInsulationChange_rows st "b" "val1m" "2.5") as (_ & Hb & _).
  destruct (handleInsulationChange_rows st "c" "val1m" "2.5") as (_ & _ & _ & Hc & _).
  split.
  - rewrite (Hb 1%nat {[ "id" := "b" ]} eq_refl). vm_compute. reflexivity.
  - apply Hc. vm_compute. intros H.
    repeat (apply elem_of_cons in H as [H | H]; [discriminate H |]).
    by apply elem_of_nil in H.
Defined.

Lemma handleTgDeltaChange_rows_witness :
  let st := {| tapRange := 5; data := ∅;
               tgDeltaData := [ {[ "id" := "a" ]}; {[ "id" := "b" ]} ];
               insulationData := [];
               headerInfo := emptyHeaderInfo 0;
               resistanceSettings := defaultResistanceSettings |} in
  row_ids (tgDeltaData (handleTgDeltaChange "a" "guard" "H.V" st)) = [Some "a"; Some "b"]
  /\ tgDeltaData (handleTgDeltaChange "a" "guard" "H.V" st) !! 0%nat
     = Some {[ "id" := "a"; "guard" := "H.V" ]}.
Proof.
  intros st. destruct (handleTgDeltaChange_rows st "a" "guard" "H.V") as (_ & Hk & Hid & _).
  split.
  - rewrite Hid by discriminate. reflexivity.
  - rewrite (Hk 0%nat {[ "id" := "a" ]} eq_refl). vm_compute. reflexivity.
Defined.

(** ** Adding and removing rows *)

Lemma remove_rows_absent (i : string) (rows : list row) :
  Some i ∉ row_ids rows -> filter (fun r : row => r !! "id" <> Some i) rows = rows.
Proof.
  intros H. induction rows as [| r rows IH]; [reflexivity |].
  unfold row_ids in H. rewrite fmap_cons, not_elem_of_cons in H. destruct H as [Hr H].
  rewrite filter_cons_True by congruence. f_equal. by apply IH.
Qed.

(** X5. A confirmed [removeTgDeltaRow] or [removeInsulationRow] keeps
    exactly the rows that do not have the id, in their order, so that no
    row with the id is left; it changes nothing when no row has the id,
    and a removal that is not confirmed changes nothing at all. *)
Theorem remove_rows (st : State) (i : string) :
  let tg := tgDeltaData (removeTgDeltaRow true i st) in
  let ins := insulationData (removeInsulationRow true i st) in
  (Some i ∉ row_ids tg) /\ (Some i ∉ row_ids ins)
  /\ (forall r, r ∈ tg <-> r ∈ tgDeltaData st /\ r !! "id" <> Some i)
  /\ (forall r, r ∈ ins <-> r ∈ insulationData st /\ r !! "id" <> Some i)
  /\ sublist tg (tgDeltaData st) /\ sublist ins (insulationData st)
  /\ (Some i ∉ row_ids (tgDeltaData st) -> removeTgDeltaRow true i st = st)
  /\ (Some i ∉ row_ids (insulationData st) -> removeInsulationRow true i st = st)
  /\ removeTgDeltaRow false i st = st /\ removeInsulationRow false i st = st.
Proof.
  cbv zeta. unfold removeTgDeltaRow, removeInsulationRow, setTgDeltaData, setInsulationData.
  cbn [tgDeltaData insulationData].
  assert (Hgone : forall rows : list row,
             Some i ∉ row_ids (filter (fun r : row => r !! "id" <> Some i) rows)).
  { intros rows H. unfold row_ids in H.
    apply list_elem_of_fmap in H as (r & Hr & Hin).
    apply list_elem_of_filter in Hin as [Hne _]. congruence. }
  split; [apply Hgone |]. split; [apply Hgone |].
  split; [intros r; rewrite list_elem_of_filter; tauto |].
  split; [intros r; rewrite list_elem_of_filter; tauto |].
  split; [apply sublist_filter |]. split; [apply sublist_filter |].
  split; [intros H; rewrite remove_rows_absent by exact H; by destruct st |].
  split; [intros H; rewrite remove_rows_absent by exact H; by destruct st |].
  by split.
Qed.

Lemma remove_rows_witness :
  let st := {| tapRange := 5; data := ∅;
               tgDeltaData := [ {[ "id" := "a" ]}; {[ "id" := "b" ]} ];
               insulationData := [];
               headerInfo := emptyHeaderInfo 0;
               resistanceSettings := defaultResistanceSettings |} in
  removeTgDeltaRow true "c" st = st.
Proof.
  intros st. destruct (remove_rows st "c") as (_ & _ & _ & _ & _ & _ & H & _).
  apply H. vm_compute. intros Hin.
  repeat (apply elem_of_cons in Hin as [Hin | Hin]; [discriminate Hin |]).
  by apply elem_of_nil in Hin.
Defined.

Lemma filter_snoc_fresh (i : string) (rows : list row) :
  Some i ∉ row_ids rows ->
  filter (fun r : row => r !! "id" <> Some i) (rows ++ [{[ "id" := i ]}]) = rows.
Proof.
  intros H. rewrite filter_app, remove_rows_absent by exact H.
  rewrite filter_cons_False, filter_nil, app_nil_r; [reflexivity |].
  intros Hne. apply Hne. apply lookup_singleton_eq.
Qed.

(** X6. [addTgDeltaRow] and [addInsulationRow] put one row at the end of
    their table, made of the id of one call of [generateId] and of
    nothing else, and keep the rows that were there; when no row had that
    id, removing the new row gives the state before the addition back. *)
Theorem add_then_remove (st : State) (w : World) :
  let i := random_ids w (drawn w) in
  (addTgDeltaRow st w).2 = after_draws 1 w
  /\ (addInsulationRow st w).2 = after_draws 1 w
  /\ tgDeltaData (addTgDeltaRow st w).1 = tgDeltaData st ++ [{[ "id" := i ]}]
  /\ insulationData (addInsulationRow st w).1 = insulationData st ++ [{[ "id" := i ]}]
  /\ (Some i ∉ row_ids (tgDeltaData st) ->
      removeTgDeltaRow true i (addTgDeltaRow st w).1 = st)
  /\ (Some i ∉ row_ids (insulationData st) ->
      removeInsulationRow true i (addInsulationRow st w).1 = st).
Proof.
  cbv zeta. unfold addTgDeltaRow, addInsulationRow, mbind, world_bind.
  rewrite generateId_spec. unfold mret, world_ret. cbn [fst snd].
  unfold removeTgDeltaRow, removeInsulationRow, setTgDeltaData, setInsulationData.
  cbn [tapRange data tgDeltaData insulationData headerInfo resistanceSettings].
  repeat split.
  - intros H. rewrite filter_snoc_fresh by exact H. by destruct st.
  - intros H. rewrite filter_snoc_fresh by exact H. by destruct st.
Qed.

Lemma add_then_remove_witness :
  let st := {| tapRange := 5; data := ∅;
               tgDeltaData := [ {[ "id" := "a" ]} ]; insulationData := [];
               headerInfo := emptyHeaderInfo 0;
               resistanceSettings := defaultResistanceSettings |} in
  let w := {| random_ids := fun _ => "b"; drawn := 0; now := 0 |} in
  removeTgDeltaRow true "b" (addTgDeltaRow st w).1 = st.
Proof.
  intros st w. destruct (add_then_remove st w) as (_ & _ & _ & _ & H & _).
  apply H. vm_compute. intros Hin.
  repeat (apply elem_of_cons in Hin as [Hin | Hin]; [discriminate Hin |]).
  by apply elem_of_nil in Hin.
Defined.

(** An id that a row already has: removing the added row removes that
    row too. *)
Example remove_takes_every_row_of_the_id :
  let st := {| tapRange := 5; data := ∅;
               tgDeltaData := [ {[ "id" := "a"; "mode" := "UST" ]} ];
               insulationData := [];
               headerInfo := emptyHeaderInfo 0;
               resistanceSettings := defaultResistanceSettings |} in
  let w := {| random_ids := fun _ => "a"; drawn := 0; now := 0 |} in
  tgDeltaData (removeTgDeltaRow true "a" (addTgDeltaRow st w).1) = [].
Proof. vm_compute. reflexivity. Qed.

End Tables.

(* ===================================================================== *)
(** * The editor state across edits, saving and reopening *)
(* ===================================================================== *)

Section EditorState.
Import JSString World Editor App Spec Notions.

Lemma row_ids_filter_NoDup (i : string) (rows : list row) :
  NoDup (row_ids rows) ->
  NoDup (row_ids (filter (fun r : row => r !! "id" <> Some i) rows)).
Proof.
  intros H. eapply sublist_NoDup; [exact H |].
  unfold row_ids. apply fmap_sublist, sublist_filter.
Qed.

Lemma row_ids_snoc_NoDup (i : string) (rows : list row) :
  Some i ∉ row_ids rows -> NoDup (row_ids rows) ->
  NoDup (row_ids (rows ++ [{[ "id" := i ]}])).
Proof.
  intros Hi H. unfold row_ids. rewrite fmap_app. apply NoDup_app.
  split; [exact H |]. split.
  - intros x Hx Hin. cbn in Hin. apply list_elem_of_singleton in Hin.
    rewrite lookup_singleton_eq in Hin. subst x. by apply Hi.
  - cbn. apply NoDup_singleton.
Qed.

(** X7. The ids of the rows of the two tables stay distinct under every
    edit that does not write the field [id] itself and, when it adds a
    row, draws an id that its table does not have yet. *)
Theorem apply_keeps_ids_distinct (mu : Mutation) (st : State) (w : World) :
  keeps_ids mu st w ->
  NoDup (row_ids (tgDeltaData st)) -> NoDup (row_ids (insulationData st)) ->
  NoDup (row_ids (tgDeltaData (apply mu st w).1))
  /\ NoDup (row_ids (insulationData (apply mu st w).1)).
Proof.
  intros Hk Htg Hins.
  destruct mu; cbn [apply keeps_ids] in *; unfold mret, world_ret; cbn [fst];
    try (split; assumption).
  - unfold handleTgDeltaChange, setTgDeltaData. cbn [tgDeltaData insulationData].
    split; [| exact Hins]. by rewrite update_rows_ids.
  - unfold addTgDeltaRow, mbind, world_bind. rewrite generateId_spec.
    unfold mret, world_ret. cbn [fst]. unfold setTgDeltaData.
    cbn [tgDeltaData insulationData].
    split; [| exact Hins]. by apply row_ids_snoc_NoDup.
  - cbn [removeTgDeltaRow]. unfold setTgDeltaData. cbn [tgDeltaData insulationData].
    split; [| exact Hins]. by apply row_ids_filter_NoDup.
  - unfold handleInsulationChange, setInsulationData. cbn [tgDeltaData insulationData].
    split; [exact Htg |]. by rewrite update_rows_ids.
  - unfold addInsulationRow, mbind, world_bind. rewrite generateId_spec.
    unfold mret, world_ret. cbn [fst]. unfold setInsulationData.
    cbn [tgDeltaData insulationData].
    split; [exact Htg |]. by apply row_ids_snoc_NoDup.
  - cbn [removeInsulationRow]. unfold setInsulationData. cbn [tgDeltaData insulationData].
    split; [exact Htg |]. by apply row_ids_filter_NoDup.
Qed.

Lemma apply_keeps_ids_distinct_witness :
  let st := {| tapRange := 5; data := ∅;
               tgDeltaData := [ {[ "id" := "a" ]}; {[ "id" := "b" ]} ];
               insulationData := [];
               headerInfo := emptyHeaderInfo 0;
               resistanceSettings := defaultResistanceSettings |} in
  let w := {| random_ids := fun _ => "c"; drawn := 0; now := 0 |} in
  NoDup (row_ids (tgDeltaData (apply AddTgDeltaRow st w).1))
  /\ NoDup (row_ids (insulationData (apply AddTgDeltaRow st w).1)).
Proof.
  intros st w. apply apply_keeps_ids_distinct.
  - vm_compute. intros Hin.
    repeat (apply elem_of_cons in Hin as [Hin | Hin]; [discriminate Hin |]).
    by apply elem_of_nil in Hin.
  - vm_compute. apply NoDup_cons. split.
    + intros Hin. repeat (apply elem_of_cons in Hin as [Hin | Hin]; [discriminate Hin |]).
      by apply elem_of_nil in Hin.
    + apply NoDup_singleton.
  - apply NoDup_nil_2.
Defined.

(** X9. Reopening what was saved: the editor state made from the project
    the save effect writes is the state that was saved, no id is drawn
    and the clock is not read; but a tap range of 0, which the selector
    offers, comes back as 5. *)
Theorem init_of_saved (p : Project.t) (st : State) (t : Z) (w : World) :
  init (updatedProject p st t) w =
  (match tapRange st with O => setTapRange 5 st | S _ => st end, w).
Proof.
  unfold init, updatedProject. cbn [Project.tapRange Project.data Project.tgDeltaData
    Project.insulationData Project.headerInfo Project.resistanceSettings].
  unfold mbind, world_bind, mret, world_ret. cbn [default].
  destruct st as [[| n] d tg ins h r]; reflexivity.
Qed.

End EditorState.

(* ===================================================================== *)
(** * What the save effect writes, and when *)
(* ===================================================================== *)

Section Saving.
Import JSString World Editor App Spec Notions.

Lemma mount_spec (u : option string) (ws : list Write) (p : Project.t) (w : World) :
  mount u ws p w =
  save_effect
    {| user := u; updates := []; writes := ws; world := (init p w).2;
       project := p; state := (init p w).1; isSaving := false; timeoutId := None;
       inflight := 0 |}.
Proof. unfold mount. by destruct (init p w). Qed.

Lemma mount_just_edited (u : option string) (ws : list Write) (p : Project.t) (w : World) :
  just_edited (mount u ws p w).
Proof. rewrite mount_spec. apply save_effect_just_edited. Qed.

(** X10. Opening a project saves it: with no edit at all, a second
    after the editor is mounted [onUpdate] is called once, with the
    project as the editor initialised it and the time of the mount as
    [lastModified].  A signed-in user gets one call of [setDoc] for it,
    and the saving flag, set since the mount, is cleared when the store
    answers that call; without a user it is cleared at once. *)
Theorem mount_saves_unedited
    (u : option string) (ws : list Write) (p : Project.t) (w : World) (d : Z) :
  1000 <= d ->
  let opened := mount u ws p w in
  let saved := step (Elapse d) opened in
  let doc := updatedProject p (init p w).1 (now w) in
  isSaving opened = true /\ updates opened = [] /\ writes opened = ws
  /\ updates saved = [doc]
  /\ writes saved = handleUpdateProject u doc ws
  /\ state saved = (init p w).1
  /\ timeoutId saved = None
  /\ isSaving saved = match u with Some _ => true | None => false end
  /\ inflight saved = match u with Some _ => 1%nat | None => 0%nat end
  /\ isSaving (step Settle saved) = false.
Proof.
  intros Hd opened saved doc. subst saved.
  rewrite (quiet_period_saves d opened (mount_just_edited u ws p w) Hd).
  assert (Hdoc : updatedProject (project opened) (state opened) (now (world opened)) = doc).
  { subst opened doc. rewrite mount_spec. unfold save_effect, rerender.
    cbn [project state world]. by rewrite render_now, init_now. }
  rewrite Hdoc.
  destruct (timeout_fires_spec doc opened) as (TU & TW & _ & _ & TS & TT & _ & TF & TI).
  assert (Ho : isSaving opened = true /\ updates opened = [] /\ writes opened = ws
               /\ user opened = u /\ state opened = (init p w).1
               /\ inflight opened = 0%nat).
  { subst opened. rewrite mount_spec. by repeat split. }
  destruct Ho as (O1 & O2 & O3 & O4 & O5 & O6).
  rewrite O2 in TU. rewrite O3, O4 in TW. rewrite O5 in TS. rewrite O4, O1 in TF.
  rewrite O4, O6 in TI.
  do 3 (split; [assumption |]).
  cbn [advance updates writes state timeoutId isSaving inflight].
  do 4 (split; [assumption |]).
  split; [exact TF |]. split; [exact TI |].
  cbn [step]. unfold settle. cbn [advance inflight]. rewrite TI.
  destruct u; [reflexivity |]. cbn [isSaving]. exact TF.
Qed.

Lemma mount_saves_unedited_witness :
  let p := {| Project.id := "p1"; Project.lastModified := "2024-01-01T00:00:00.000Z";
              Project.tapRange := Some 3%nat; Project.headerInfo := None;
              Project.data := None; Project.resistanceSettings := None;
              Project.tgDeltaData := Some []; Project.insulationData := Some [] |} in
  let w := {| random_ids := fun _ => "a"; drawn := 0; now := 86400000 |} in
  (Project.lastModified <$> updates (step (Elapse 1000) (mount (Some "u") [] p w)))
  = ["1970-01-02T00:00:00.000Z"].
Proof.
  intros p w. destruct (mount_saves_unedited (Some "u") [] p w 1000) as (_ & _ & _ & H & _).
  - lia.
  - rewrite H. vm_compute. reflexivity.
Defined.

Lemma apply_now (mu : Mutation) (st : State) (w : World) :
  now (apply mu st w).2 = now w.
Proof.
  destruct mu; cbn [apply]; unfold mret, world_ret, addTgDeltaRow, addInsulationRow,
    mbind, world_bind; rewrite ?generateId_spec; reflexivity.
Qed.

Lemma in_step_rerender (s : Session) : in_step s -> in_step (rerender s).
Proof.
  unfold in_step, rerender. cbn [timeoutId project state world updates inflight isSaving].
  by rewrite render_now.
Qed.

Lemma in_step_save_effect (s : Session) : in_step (save_effect s).
Proof.
  pose proof (save_effect_just_edited s) as J. unfold just_edited in J.
  unfold in_step. rewrite J. eexists. split; [reflexivity |]. lia.
Qed.

(** Selecting the tap range that is selected changes nothing that is
    saved. *)
Lemma unchanged_dependency (mu : Mutation) (st : State) (w : World) (p : Project.t) (t : Z) :
  changes_dependency mu st = false ->
  updatedProject p (apply mu st w).1 t = updatedProject p st t.
Proof.
  destruct mu; try discriminate. cbn [changes_dependency apply]. intros H.
  apply negb_false_iff, Nat.eqb_eq in H. unfold mret, world_ret. cbn [fst].
  unfold updatedProject, setTapRange. cbn [tapRange data tgDeltaData insulationData
    headerInfo resistanceSettings]. by rewrite H.
Qed.

Lemma step_in_step (ev : Event) (s : Session) :
  match ev with Elapse d => 0 <= d | _ => True end ->
  in_step s -> in_step (step ev s).
Proof.
  intros Hev H. destruct ev as [mu | d | |]; cbn [step].
  - pose proof (apply_now mu (state s) (world s)) as Hnow.
    destruct (changes_dependency mu (state s)) eqn:Hc.
    + destruct (apply mu (state s) (world s)) as [st w]. apply in_step_save_effect.
    + pose proof (fun t => unchanged_dependency mu (state s) (world s) (project s) t Hc)
        as Hsame.
      destruct (apply mu (state s) (world s)) as [st w]. cbn [fst snd] in Hnow, Hsame.
      apply in_step_rerender. unfold in_step in *.
      cbn [timeoutId project state world updates inflight isSaving].
      destruct (timeoutId s) as [[due doc] |].
      * destruct H as (t & Hdoc & Hdue & Hle). exists t. rewrite Hsame, Hnow.
        split; [exact Hdoc | split; [exact Hdue | exact Hle]].
      * destruct H as (Hflag & t & Hlast). split; [exact Hflag |]. exists t.
        by rewrite Hsame.
  - unfold in_step in H. destruct (timeoutId s) as [[due doc] |] eqn:Ht.
    + destruct H as (t & Hdoc & Hdue & Hle).
      destruct (Z.leb_spec due (now (world s) + d)).
      * destruct (timeout_fires_spec doc s) as (TU & _ & _ & TP & TS & TT & _ & TF & TI).
        unfold in_step, advance. cbn [timeoutId isSaving project state world updates inflight].
        rewrite TT, TU, TP, TS, TF, TI. split.
        -- destruct (user s); [discriminate | reflexivity].
        -- exists t. by rewrite last_snoc, Hdoc.
      * unfold in_step, advance, elapse. cbn [timeoutId isSaving project state world now].
        rewrite Ht. exists t. repeat split; try assumption; lia.
    + unfold in_step, advance. cbn [timeoutId isSaving project state world updates inflight].
      rewrite Ht. exact H.
  - unfold settle. destruct (inflight s) as [| n] eqn:Hn; [exact H |].
    apply in_step_rerender. unfold in_step in *.
    cbn [timeoutId isSaving project state world updates inflight].
    destruct (timeoutId s) as [[due doc] |]; [exact H |].
    destruct H as (_ & Hlast). by split.
  - by apply in_step_rerender.
Qed.

Lemma run_in_step (evs : list Event) (s : Session) :
  forward evs -> in_step s -> in_step (run evs s).
Proof.
  revert s. induction evs as [| ev evs IH]; intros s Hf H; [exact H |].
  rewrite run_cons. apply Forall_cons in Hf as [Hev Hf].
  apply IH; [exact Hf |]. by apply step_in_step.
Qed.

Lemma run_project (evs : list Event) (s : Session) :
  project (run evs s) = project s /\ user (run evs s) = user s.
Proof.
  revert s. induction evs as [| ev evs IH]; intros s; [by split |].
  rewrite run_cons. destruct (IH (step ev s)) as [-> ->].
  destruct ev as [mu | d | |]; cbn [step].
  - destruct (apply mu (state s) (world s)).
    by destruct (changes_dependency mu (state s)).
  - destruct (timeoutId s) as [[due doc] |]; [| by split].
    destruct (due <=? now (world s) + d); [| by split].
    destruct (timeout_fires_spec doc s) as (_ & _ & TU & TP & _). by split.
  - unfold settle. by destruct (inflight s).
  - by split.
Qed.

(** X11. No edit is left behind: however edits, pauses, answers of the
    store and renders follow one another after a project is opened,
    either a save is pending, due within the second, and it carries the
    editor state as it is now, or none is pending and the last project
    passed to [onUpdate] carries the state as it is now; in the second
    case the saving flag is cleared once the store has answered every
    call of [setDoc].  A further second without edits therefore ends
    with the current state passed to [onUpdate]. *)
Theorem edits_reach_onUpdate
    (evs : list Event) (u : option string) (ws : list Write) (p : Project.t)
    (w : World) (d : Z) :
  forward evs -> 1000 <= d ->
  let s := run evs (mount u ws p w) in
  let s' := step (Elapse d) s in
  in_step s
  /\ state s' = state s /\ timeoutId s' = None
  /\ (inflight s' = 0%nat -> isSaving s' = false)
  /\ exists t, last (updates s') = Some (updatedProject p (state s) t).
Proof.
  intros Hf Hd s s'.
  assert (Hs : in_step s).
  { apply run_in_step; [exact Hf |]. rewrite mount_spec. apply in_step_save_effect. }
  split; [exact Hs |].
  assert (Hproj : project s = p).
  { unfold s. destruct (run_project evs (mount u ws p w)) as [-> _].
    rewrite mount_spec. reflexivity. }
  assert (Hs' : in_step s').
  { apply (step_in_step (Elapse d)); [lia | exact Hs]. }
  assert (Hst : state s' = state s /\ timeoutId s' = None /\ project s' = project s).
  { subst s'. cbn [step]. unfold in_step in Hs.
    destruct (timeoutId s) as [[due doc] |] eqn:Ht; [| by repeat split].
    destruct Hs as (t & Hdoc & Hdue & Hle).
    destruct (Z.leb_spec due (now (world s) + d)); [| lia].
    destruct (timeout_fires_spec doc s) as (_ & _ & _ & TP & TS & TT & _).
    by repeat split. }
  destruct Hst as (Hstate & Htime & Hp').
  split; [exact Hstate |]. split; [exact Htime |].
  unfold in_step in Hs'. rewrite Htime, Hstate, Hp', Hproj in Hs'. exact Hs'.
Qed.

Lemma edits_reach_onUpdate_witness :
  let p := {| Project.id := "p1"; Project.lastModified := EmptyString;
              Project.tapRange := Some 5%nat; Project.headerInfo := None;
              Project.data := None; Project.resistanceSettings := None;
              Project.tgDeltaData := Some []; Project.insulationData := Some [] |} in
  let w := {| random_ids := fun _ => "a"; drawn := 0; now := 0 |} in
  let evs := [Elapse 1500; Mutate (SetTapRange 5); Mutate (InputChange "pos-1" "phaseA" "1.5");
              Settle; Elapse 300; Render; Mutate AddTgDeltaRow] in
  let s := run evs (mount (Some "u") [] p w) in
  exists t, last (updates (step (Elapse 1000) s)) = Some (updatedProject p (state s) t).
Proof.
  intros p w evs s.
  destruct (edits_reach_onUpdate evs (Some "u") [] p w 1000) as (_ & _ & _ & _ & H).
  - unfold evs, forward. repeat (apply Forall_cons; split; [try exact I; lia |]).
    apply Forall_nil_2.
  - lia.
  - exact H.
Defined.

(** The saving flag can be off while a save is pending: the project is
    opened at 0 and its timeout fires at 1000, an edit at 1100 starts a
    timeout due at 2100, and the answer of the store to the first call
    of [setDoc] then clears the flag. *)
Example flag_off_while_save_pending :
  let p := {| Project.id := "p1"; Project.lastModified := EmptyString;
              Project.tapRange := Some 5%nat; Project.headerInfo := None;
              Project.data := None; Project.resistanceSettings := None;
              Project.tgDeltaData := Some []; Project.insulationData := Some [] |} in
  let w := {| random_ids := fun _ => "a"; drawn := 0; now := 0 |} in
  let s := run [Elapse 1000; Elapse 100; Mutate (InputChange "pos-1" "phaseA" "1.5");
                Settle; Elapse 200] (mount (Some "u") [] p w) in
  isSaving s = false /\ fst <$> timeoutId s = Some 2100 /\ length (writes s) = 1%nat.
Proof. vm_compute. by repeat split. Qed.

(** Each call of the component function evaluates the arguments of the
    [useState] calls: for a project without the two tables, ten ids are
    drawn at the mount and ten more at each later call, two of which
    follow every edit. *)
Example renders_draw_ids :
  let p := {| Project.id := "p1"; Project.lastModified := EmptyString;
              Project.tapRange := None; Project.headerInfo := None;
              Project.data := None; Project.resistanceSettings := None;
              Project.tgDeltaData := None; Project.insulationData := None |} in
  let w := {| random_ids := fun _ => "a"; drawn := 0; now := 0 |} in
  let s := mount (Some "u") [] p w in
  drawn (world s) = 20%nat
  /\ drawn (world (run [Mutate (InputChange "pos-1" "phaseA" "1.5")] s)) = 40%nat
  /\ drawn (world (run [Mutate (InputChange "pos-1" "phaseA" "1.5");
                        Mutate AddTgDeltaRow] s)) = 61%nat.
Proof. vm_compute. by repeat split. Qed.

(** X12. Whatever the edits and pauses of an editing session (and the
    answers of the store and the renders in between), the calls of
    [setDoc] made before it stay as they were and, with a signed-in
    user, it adds one call for each project passed to [onUpdate], in
    that order, under that user and under the id of the open project,
    which every saved project keeps; without a user it adds none. *)
Theorem session_writes
    (evs : list Event) (u : option string) (ws : list Write) (p : Project.t) (w : World) :
  let s := run evs (mount u ws p w) in
  writes s = ws ++ match u with
                   | Some uid => write_of uid <$> updates s
                   | None => []
                   end
  /\ Forall (fun doc => Project.id doc = Project.id p) (updates s)
  /\ user s = u /\ project s = p.
Proof.
  cbv zeta.
  set (inv := fun s : Session =>
    writes s = ws ++ match u with Some uid => write_of uid <$> updates s | None => [] end
    /\ Forall (fun doc => Project.id doc = Project.id p) (updates s)
    /\ Forall (fun doc => Project.id doc = Project.id p) (snd <$> option_list (timeoutId s))
    /\ user s = u /\ project s = p).
  assert (Hre : forall s, inv s -> inv (rerender s)) by (by intros s H).
  assert (Hstep : forall ev s, inv s -> inv (step ev s)).
  { intros ev s (Hw & Hd & Ht & Hu & Hp). destruct ev as [mu | d | |]; cbn [step].
    - destruct (apply mu (state s) (world s)) as [st w'].
      destruct (changes_dependency mu (state s)); [| by unfold inv].
      unfold inv, save_effect, set_state, rerender.
      cbn [writes updates timeoutId user project]. repeat split; try assumption.
      cbn. apply Forall_cons. split; [by rewrite Hp | apply Forall_nil_2].
    - destruct (timeoutId s) as [[due doc] |] eqn:E;
        [| unfold inv, advance; cbn [writes updates timeoutId user project];
           rewrite E; by repeat split].
      cbn in Ht. apply Forall_cons in Ht as [Hdoc _].
      destruct (due <=? now (world s) + d).
      + destruct (timeout_fires_spec doc s) as (TU & TW & TUs & TP & _ & TT & _).
        unfold inv, advance. cbn [writes updates timeoutId user project].
        rewrite TU, TW, TUs, TP, TT. unfold handleUpdateProject. rewrite Hu.
        repeat split; try assumption.
        * destruct u as [uid |]; [| exact Hw].
          rewrite fmap_app, Hw, <- app_assoc. cbn. unfold write_of. by rewrite Hdoc.
        * apply Forall_app. split; [exact Hd |].
          apply Forall_cons. split; [exact Hdoc | apply Forall_nil_2].
        * apply Forall_nil_2.
      + unfold inv, advance. cbn [writes updates timeoutId user project]. rewrite E.
        repeat split; try assumption. cbn. apply Forall_cons. split; [exact Hdoc |].
        apply Forall_nil_2.
    - unfold settle. destruct (inflight s); by unfold inv.
    - by unfold inv. }
  assert (Hrun : forall evs' s, inv s -> inv (run evs' s)).
  { induction evs' as [| ev evs' IH]; intros s H; [exact H |].
    rewrite run_cons. by apply IH, Hstep. }
  assert (H0 : inv (mount u ws p w)).
  { rewrite mount_spec. unfold inv, save_effect, rerender.
    cbn [writes updates timeoutId user project]. repeat split.
    - destruct u; cbn; by rewrite app_nil_r.
    - apply Forall_nil_2.
    - cbn. apply Forall_cons. split; [reflexivity | apply Forall_nil_2]. }
  destruct (Hrun evs _ H0) as (Hw & Hd & _ & Hu & Hp). by repeat split.
Qed.

Lemma spaced_saves (edits : list (Mutation * Z)) (s : Session) :
  spaced edits s ->
  length (updates (run (spaced_events edits) s)) = (length (updates s) + length edits)%nat
  /\ user (run (spaced_events edits) s) = user s
  /\ project (run (spaced_events edits) s) = project s
  /\ (edits <> [] ->
      timeoutId (run (spaced_events edits) s) = None
      /\ (user s = None -> isSaving (run (spaced_events edits) s) = false)
      /\ (user s <> None ->
          isSaving (run (spaced_events edits) s) = true
          /\ inflight (run (spaced_events edits) s) <> 0%nat)
      /\ exists t, last (updates (run (spaced_events edits) s))
                   = Some (updatedProject (project s)
                             (state (run (spaced_events edits) s)) t)).
Proof.
  revert s. induction edits as [| [mu d] edits IH]; intros s H.
  - cbn. split; [lia |]. split; [reflexivity |]. split; [reflexivity |]. congruence.
  - cbn [spaced] in H. destruct H as (Hmu & Hd & H).
    cbn [spaced_events]. rewrite !run_cons.
    destruct (mutate_just_edited mu s Hmu) as (J & D & _ & U & P & _ & F).
    pose proof (quiet_period_saves d _ J Hd) as Hq.
    set (s1 := step (Mutate mu) s) in *.
    destruct (timeout_fires_spec (updatedProject (project s1) (state s1) (now (world s1))) s1)
      as (TU & _ & TUs & TP & TS & TT & _ & TF & TI).
    assert (Hs2 : updates (step (Elapse d) s1)
                  = updates s ++ [updatedProject (project s1) (state s1) (now (world s1))]
                  /\ user (step (Elapse d) s1) = user s
                  /\ project (step (Elapse d) s1) = project s
                  /\ state (step (Elapse d) s1) = state s1
                  /\ timeoutId (step (Elapse d) s1) = None
                  /\ isSaving (step (Elapse d) s1)
                     = match user s with Some _ => true | None => false end
                  /\ inflight (step (Elapse d) s1)
                     = match user s with Some _ => S (inflight s1) | None => inflight s1 end).
    { rewrite Hq. cbn [advance updates user project state timeoutId isSaving inflight].
      rewrite TU, TUs, TP, TS, TT, TF, TI, D, U, P, F. by repeat split. }
    destruct Hs2 as (S1 & S2 & S3 & S4 & S5 & S6 & S7).
    destruct (IH _ H) as (Hl & Hu & Hp & Hn). rewrite Hl, Hu, Hp, S1, S2, S3.
    split; [rewrite length_app; cbn; lia |]. split; [reflexivity |]. split; [reflexivity |].
    intros _. destruct edits as [| e edits].
    + cbn [spaced_events run fold_left]. rewrite S1, S4, S5, S6, S7.
      split; [reflexivity |]. split; [by intros -> |].
      split; [intros Hne; destruct (user s); [by split | congruence] |].
      exists (now (world s1)). by rewrite last_snoc, P.
    + destruct (Hn ltac:(discriminate)) as (N1 & N2 & N3 & N4).
      rewrite S2 in N2, N3. rewrite S3 in N4.
      split; [exact N1 |]. split; [exact N2 |]. split; [exact N3 | exact N4].
Qed.

(** X13. Edits that are a second or more apart are saved one by one:
    each is followed by its own call of [onUpdate], whatever save was
    pending before the first of them, and after the last pause nothing
    is pending and the last project passed to [onUpdate] carries the
    state as it is.  Without a user the saving flag is then cleared;
    with one it is still set, and the answer of the store clears it. *)
Theorem spaced_edits_save_each (edits : list (Mutation * Z)) (s : Session) :
  spaced edits s -> edits <> [] ->
  let s' := run (spaced_events edits) s in
  length (updates s') = (length (updates s) + length edits)%nat
  /\ timeoutId s' = None
  /\ (exists t, last (updates s') = Some (updatedProject (project s) (state s') t))
  /\ (user s = None -> isSaving s' = false)
  /\ (user s <> None -> isSaving s' = true /\ isSaving (step Settle s') = false).
Proof.
  intros H Hne s'. destruct (spaced_saves edits s H) as (Hl & _ & _ & Hn).
  destruct (Hn Hne) as (Ht & Hnone & Hsome & Hlast).
  split; [exact Hl |]. split; [exact Ht |]. split; [exact Hlast |].
  split; [exact Hnone |]. intros Hu. destruct (Hsome Hu) as [Hflag Hin].
  split; [exact Hflag |]. by apply settle_clears_flag.
Qed.

Lemma spaced_edits_save_each_witness :
  let p := {| Project.id := "p1"; Project.lastModified := EmptyString;
              Project.tapRange := Some 5%nat; Project.headerInfo := None;
              Project.data := None; Project.resistanceSettings := None;
              Project.tgDeltaData := Some []; Project.insulationData := Some [] |} in
  let s := mount (Some "u") [] p {| random_ids := fun _ => "a"; drawn := 0; now := 0 |} in
  let edits := [(SetTapRange 3, 1000); (InputChange "pos-1" "phaseA" "1.5", 2500)] in
  length (updates (run (spaced_events edits) s)) = 2%nat.
Proof.
  intros p s edits. destruct (spaced_edits_save_each edits s) as (H & _).
  - cbn [edits spaced]. repeat split; try lia; vm_compute; reflexivity.
  - discriminate.
  - exact H.
Defined.

End Saving.

(* ===================================================================== *)
(** * Deleting a project from the dashboard *)
(* ===================================================================== *)

Section Deleting.
Import Dashboard Notions.

Lemma first_click (id : string) (s : State) :
  confirmDeleteId s <> Some id ->
  click id s = confirm_effect (Some id) s.
Proof. intros H. unfold click. by rewrite bool_decide_eq_false_2. Qed.

Lemma clicks_cons (ev : Event) (evs : list Event) (s : State) :
  run (ev :: evs) s = run evs (step ev s).
Proof. reflexivity. Qed.

(** X14. A project is deleted by the second of two clicks on its delete
    button that are less than three seconds apart: the first click
    deletes nothing and the second makes one call of [deleteDoc], for
    that project and under the signed-in user; the active project is
    unset when it is the deleted one and kept otherwise. *)
Theorem two_clicks_delete (s : State) (id u : string) (d : Z) :
  confirmDeleteId s <> Some id -> id <> EmptyString -> d < 3000 -> user s = Some u ->
  deletions (click id s) = deletions s
  /\ activeProjectId (click id s) = activeProjectId s
  /\ deletions (run [Click id; Elapse d; Click id] s)
     = deletions s ++ [{| owner := u; deleted := id |}]
  /\ activeProjectId (run [Click id; Elapse d; Click id] s)
     = if bool_decide (activeProjectId s = Some id) then None else activeProjectId s.
Proof.
  intros Hc Hid Hd Hu. rewrite !clicks_cons. cbn [run fold_left step].
  rewrite (first_click id s Hc).
  destruct id as [| a id]; [congruence |].
  split; [reflexivity |]. split; [reflexivity |].
  unfold elapse, confirm_effect. cbn [timer now].
  destruct (Z.leb_spec (now s + 3000) (now s + d)); [lia |].
  unfold click. cbn [confirmDeleteId user deletions activeProjectId].
  rewrite bool_decide_eq_true_2 by reflexivity.
  unfold handleDeleteProject. rewrite Hu. by split.
Qed.

Lemma two_clicks_delete_witness :
  let s := {| user := Some "u"; activeProjectId := None; confirmDeleteId := None;
              timer := None; deletions := []; now := 0 |} in
  deletions (run [Click "p1"; Elapse 2999; Click "p1"] s)
  = [{| owner := "u"; deleted := "p1" |}].
Proof.
  intros s.
  destruct (two_clicks_delete s "p1" "u" 2999) as (_ & _ & H & _);
    [discriminate | discriminate | lia | reflexivity |].
  exact H.
Defined.

(** X15. A second click that comes three seconds or more after the first
    deletes nothing and only asks for confirmation again, and so does a
    click on the button of one project between the two clicks on the
    button of another. *)
Theorem late_or_other_click_deletes_nothing (s : State) (id other : string) (d : Z) :
  confirmDeleteId s <> Some id -> id <> EmptyString -> 3000 <= d -> other <> id ->
  let late := run [Click id; Elapse d; Click id] s in
  let moved := run [Click id; Click other; Click id] s in
  deletions late = deletions s /\ activeProjectId late = activeProjectId s
  /\ confirmDeleteId late = Some id /\ timer late = Some (now s + d + 3000)
  /\ deletions moved = deletions s /\ activeProjectId moved = activeProjectId s
  /\ confirmDeleteId moved = Some id.
Proof.
  intros Hc Hid Hd Ho late moved. subst late moved.
  rewrite !clicks_cons. cbn [run fold_left step].
  rewrite (first_click id s Hc).
  destruct id as [| a id]; [congruence |].
  assert (Hlate : elapse d (confirm_effect (Some (String a id)) s)
                  = {| user := user s; activeProjectId := activeProjectId s;
                       confirmDeleteId := None; timer := None;
                       deletions := deletions s; now := now s + d |}).
  { unfold elapse, confirm_effect. cbn [timer now].
    destruct (Z.leb_spec (now s + 3000) (now s + d)); [reflexivity | lia]. }
  rewrite Hlate, first_click by discriminate.
  rewrite (first_click other) by (cbn; congruence).
  rewrite first_click by (cbn; congruence).
  by repeat split.
Qed.

Lemma late_or_other_click_deletes_nothing_witness :
  let s := {| user := Some "u"; activeProjectId := None; confirmDeleteId := None;
              timer := None; deletions := []; now := 0 |} in
  deletions (run [Click "p1"; Elapse 3000; Click "p1"] s) = []
  /\ deletions (run [Click "p1"; Click "p2"; Click "p1"] s) = [].
Proof.
  intros s.
  destruct (late_or_other_click_deletes_nothing s "p1" "p2" 3000)
    as (H1 & _ & _ & _ & H2 & _); [discriminate | discriminate | lia | discriminate |].
  split; [exact H1 | exact H2].
Defined.

(** The confirmation of a project whose id is the empty text starts no
    timeout, so that it does not lapse. *)
Example empty_id_stays_armed :
  let s := {| user := Some "u"; activeProjectId := None; confirmDeleteId := None;
              timer := None; deletions := []; now := 0 |} in
  deletions (run [Click EmptyString; Elapse 60000; Click EmptyString] s)
  = [{| owner := "u"; deleted := EmptyString |}].
Proof. vm_compute. reflexivity. Qed.

Lemma step_armed (ev : Event) (s : State) :
  match ev with Elapse d => 0 <= d | Click _ => True end ->
  armed s -> armed (step ev s).
Proof.
  intros Hev H. destruct ev as [id | d]; cbn [step].
  - unfold click. case_bool_decide as Hc.
    + destruct (handleDeleteProject (user s) id (deletions s) (activeProjectId s)).
      exact H.
    + unfold armed, confirm_effect. cbn [confirmDeleteId timer now].
      destruct id; [reflexivity |]. eexists. split; [reflexivity | lia].
  - unfold armed in *. unfold elapse.
    destruct (timer s) as [due |] eqn:Ht.
    + destruct (Z.leb_spec due (now s + d)).
      * reflexivity.
      * cbn [confirmDeleteId timer now]. rewrite Ht.
        destruct (confirmDeleteId s) as [[| a c] |]; try discriminate H.
        destruct H as (due' & [= <-] & Hle). eexists. split; [reflexivity | lia].
    + cbn [confirmDeleteId timer now]. rewrite Ht.
      destruct (confirmDeleteId s) as [[| a c] |]; try reflexivity.
      destruct H as (due' & [=] & _).
Qed.

(** X16. Over every run of clicks and pauses of the dashboard: a
    confirmation that is waiting (for a project whose id is not empty)
    always has its timeout pending and due within three seconds; a step
    that changes the calls of [deleteDoc] is a click on the project that
    is waiting, and it adds one call, at the end, under the signed-in
    user; and without a user no call is ever made. *)
Theorem deletions_are_confirmed (evs : list Event) (s : State) :
  forward_clicks evs -> armed s ->
  let s' := run evs s in
  armed s'
  /\ user s' = user s
  /\ (user s = None -> deletions s' = deletions s)
  /\ (forall ev, deletions (step ev s') <> deletions s' ->
        exists id u, ev = Click id /\ confirmDeleteId s' = Some id /\ user s = Some u
                     /\ deletions (step ev s')
                        = deletions s' ++ [{| owner := u; deleted := id |}]).
Proof.
  intros Hf Ha. cbv zeta.
  assert (Hrun : armed (run evs s) /\ user (run evs s) = user s
                 /\ (user s = None -> deletions (run evs s) = deletions s)).
  { revert s Hf Ha. induction evs as [| ev evs IH]; intros s Hf Ha; [by repeat split |].
    rewrite clicks_cons. apply Forall_cons in Hf as [Hev Hf].
    destruct (IH (step ev s) Hf (step_armed ev s Hev Ha)) as (A & U & D).
    assert (Hu : user (step ev s) = user s).
    { destruct ev as [id | d]; cbn [step].
      - unfold click. case_bool_decide; [| reflexivity].
        by destruct (handleDeleteProject _ _ _ _).
      - unfold elapse. cbn [user]. destruct (timer s) as [due |]; [| reflexivity].
        by destruct (due <=? now s + d). }
    split; [exact A |]. split; [by rewrite U |].
    intros Hn. rewrite D by (by rewrite Hu). clear -Hn.
    destruct ev as [id | d]; cbn [step].
    - unfold click. case_bool_decide; [| reflexivity].
      unfold handleDeleteProject. by rewrite Hn.
    - unfold elapse. cbn [deletions]. destruct (timer s) as [due |]; [| reflexivity].
      by destruct (due <=? now s + d). }
  destruct Hrun as (A & U & D). repeat split; try assumption.
  intros ev Hev. destruct ev as [id | d]; cbn [step] in *.
  - unfold click in *. case_bool_decide as Hc.
    + unfold handleDeleteProject in *. rewrite U in *.
      destruct (user s) as [u |]; [| by cbn in Hev].
      exists id, u. by repeat split.
    + by cbn in Hev.
  - exfalso. apply Hev. unfold elapse. cbn [deletions].
    destruct (timer (run evs s)) as [due |]; [| reflexivity].
    by destruct (due <=? now (run evs s) + d).
Qed.

Lemma deletions_are_confirmed_witness :
  let s := {| user := None; activeProjectId := None; confirmDeleteId := None;
              timer := None; deletions := []; now := 0 |} in
  deletions (run [Click "p1"; Elapse 10; Click "p1"] s) = [].
Proof.
  intros s.
  destruct (deletions_are_confirmed [Click "p1"; Elapse 10; Click "p1"] s)
    as (_ & _ & H & _).
  - unfold forward_clicks. repeat (apply Forall_cons; split; [try exact I; lia |]).
    apply Forall_nil_2.
  - reflexivity.
  - by apply H.
Defined.

End Deleting.

(* ===================================================================== *)
(** * Verdicts at the edges *)
(* ===================================================================== *)

Section Verdicts.
Import JSNumber JSString NumericFormat DerivationEngine ClassificationRules Spec.

Lemma sub_self (x : number) :
  finite x -> is_zero x = false -> exists s m e, x = S754_finite s m e /\ sub x x = zero.
Proof.
  unfold finite. intros Hf Hz. destruct x as [s | s | | s m e]; try discriminate Hf.
  - destruct s; discriminate Hz.
  - exists s, m, e. split; [reflexivity |].
    unfold sub, SFsub. cbv zeta. by rewrite Z.sub_diag.
Qed.

(** X21. A measured ratio that reads as the same number as the rated
    ratio, finite and not zero, has a deviation of zero and passes. *)
Theorem equal_ratio_passes (measured rated : field) :
  parseNum measured = parseNum rated ->
  finite (parseNum rated) -> is_zero (parseNum rated) = false ->
  exists s, calculateDeviation measured rated = Some (S754_zero s)
            /\ classify (getStatusTTR (calculateDeviation measured rated)) = PASS.
Proof.
  intros Heq Hf Hz. unfold calculateDeviation. cbv zeta. rewrite Heq, Hz.
  destruct (sub_self _ Hf Hz) as (s & m & e & Hx & ->). rewrite Hx.
  exists s. cbn [isNaN orb]. by destruct s.
Qed.

Lemma equal_ratio_passes_witness :
  exists s, calculateDeviation (Some "10,50") (Some "10.5") = Some (S754_zero s)
            /\ classify (getStatusTTR (calculateDeviation (Some "10,50") (Some "10.5"))) = PASS.
Proof.
  apply equal_ratio_passes; vm_compute; reflexivity.
Defined.

(** X22. What is not a number never passes: a deviation or an index
    that is [NaN] is a failure, the index with the label of the
    rejection, and so is a [tgPercent] text that is not blank and does
    not read as a number; only the blank text has no verdict. *)
Theorem not_a_number_fails :
  (forall d, isNaN d = true -> classify (getStatusTTR (Some d)) = FAIL)
  /\ (forall p, isNaN p = true ->
        classify (getStatusIP (Some p)) = FAIL
        /\ ClassificationRules.label (getStatusIP (Some p)) = Some "NO ACEPTABLE")
  /\ (forall text, text <> EmptyString -> unparsable (Some text) ->
        classify (getStatusTG (Some text)) = FAIL)
  /\ classify (getStatusTG (Some EmptyString)) = NEUTRAL
  /\ classify (getStatusTG None) = NEUTRAL.
Proof.
  split; [| split; [| split; [| by split]]].
  - intros [| | |] H; try discriminate H. reflexivity.
  - intros [| | |] H; try discriminate H. by split.
  - intros text Hne H. unfold unparsable in H. rewrite getStatusTG_class.
    destruct text as [| c text]; [congruence |].
    destruct (parseNum (Some (String c text))); try discriminate H. reflexivity.
Qed.

End Verdicts.

(* ===================================================================== *)
(** * The sheets of the export *)
(* ===================================================================== *)

Section Sheets.
Import JSNumber JSString NumericFormat DerivationEngine ClassificationRules.
Import TapRowGenerator Editor ExportMapper Spec Notions.

Lemma toFixed_returns (x : number) (f : Z) :
  0 <= f <= 100 -> exists s, toFixed x f = Returns s.
Proof. intros H. unfold toFixed. rewrite range_check by exact H. by eexists. Qed.

Lemma formatNum_returns (v : option number) (d : option Z) :
  0 <= default 3 d <= 100 -> exists s, formatNum v d = Returns s.
Proof.
  intros H. unfold formatNum. cbv zeta. destruct v as [x |]; [| by eexists].
  destruct (isNaN x); [by eexists |].
  destruct (toFixed_returns x _ H) as [s ->]. by eexists.
Qed.

Lemma formatted_returns (v : option number) (d : option Z) :
  0 <= default 3 d <= 100 -> exists c, formatted v d = Returns (Some c).
Proof.
  intros H. unfold formatted. destruct v as [x |]; [| by eexists].
  destruct (formatNum_returns (Some x) d H) as [s ->]. by eexists.
Qed.

Lemma pushed_returns {A : Type} (f : A -> outcome (list cell)) (P : A -> list cell -> Prop)
    (items : list A) (sheet : list (list cell)) :
  (forall item, exists r, f item = Returns r /\ P item r) ->
  exists rows, pushed f items sheet = Returns (sheet ++ rows) /\ Forall2 P items rows.
Proof.
  intros Hf. revert sheet. induction items as [| item items IH]; intros sheet.
  - exists []. split; [by rewrite app_nil_r | constructor].
  - destruct (Hf item) as (r & Hr & HP). destruct (IH (sheet ++ [r])) as (rows & Hrows & HF).
    exists (r :: rows). cbn [pushed]. rewrite Hr. unfold mbind, outcome_bind.
    rewrite Hrows, <- app_assoc. split; [reflexivity | by constructor].
Qed.

Lemma ttrRow_returns (data : gmap string row) (r : TapRow) :
  exists a b c,
    formatted (calculateDeviation (default ∅ (data !! id r) !! "phaseA")
                                  (default ∅ (data !! id r) !! "ratedRatio")) None
    = Returns a
    /\ formatted (calculateDeviation (default ∅ (data !! id r) !! "phaseB")
                                     (default ∅ (data !! id r) !! "ratedRatio")) None
       = Returns b
    /\ formatted (calculateDeviation (default ∅ (data !! id r) !! "phaseC")
                                     (default ∅ (data !! id r) !! "ratedRatio")) None
       = Returns c
    /\ ttrRow data r =
       Returns [Some (label r); default ∅ (data !! id r) !! "ratioPercent";
                default ∅ (data !! id r) !! "ratedRatio";
                default ∅ (data !! id r) !! "phaseA"; a;
                default ∅ (data !! id r) !! "phaseB"; b;
                default ∅ (data !! id r) !! "phaseC"; c].
Proof.
  unfold ttrRow. cbv zeta.
  assert (H3 : 0 <= default 3 (@None Z) <= 100) by (cbn; lia).
  destruct (formatted_returns
              (calculateDeviation (default ∅ (data !! id r) !! "phaseA")
                                  (default ∅ (data !! id r) !! "ratedRatio")) None H3)
    as [a Ha].
  destruct (formatted_returns
              (calculateDeviation (default ∅ (data !! id r) !! "phaseB")
                                  (default ∅ (data !! id r) !! "ratedRatio")) None H3)
    as [b Hb].
  destruct (formatted_returns
              (calculateDeviation (default ∅ (data !! id r) !! "phaseC")
                                  (default ∅ (data !! id r) !! "ratedRatio")) None H3)
    as [c Hc].
  exists (Some a), (Some b), (Some c). rewrite Ha, Hb, Hc. by repeat split.
Qed.

Lemma resRow_returns (s : ResistanceSettings) (data : gmap string row) (r : TapRow) :
  exists cells, resRow s data r = Returns cells /\ length cells = 7%nat.
Proof.
  unfold resRow. cbv zeta.
  assert (H4 : 0 <= default 3 (Some 4) <= 100) by (cbn; lia).
  destruct (formatted_returns
              (calculateResistanceCorrection s (default ∅ (data !! id r) !! "resConn1Meas"))
              (Some 4) H4) as [a ->].
  destruct (formatted_returns
              (calculateResistanceCorrection s (default ∅ (data !! id r) !! "resConn2Meas"))
              (Some 4) H4) as [b ->].
  destruct (formatted_returns
              (calculateResistanceCorrection s (default ∅ (data !! id r) !! "resConn3Meas"))
              (Some 4) H4) as [c ->].
  by eexists.
Qed.

Lemma append_nonempty (a b : string) : b <> EmptyString -> a +:+ b <> EmptyString.
Proof.
  intros Hb H. apply (f_equal String.length) in H. rewrite length_append in H.
  destruct b; [congruence | cbn in H; lia].
Qed.

Lemma fixed_point_nonempty (n f : Z) : 0 < f -> fixed_point n f <> EmptyString.
Proof.
  intros Hf. unfold fixed_point. cbv zeta.
  destruct (Z.eqb_spec f 0); [lia |].
  apply append_nonempty. rewrite append_cons. discriminate.
Qed.

Lemma formatNum_nonempty (x : number) (d : Z) (s : string) :
  0 < d -> formatNum (Some x) (Some d) = Returns s -> s <> EmptyString.
Proof.
  intros Hd. unfold formatNum. cbv zeta. change (default 3 (Some d)) with d.
  destruct (isNaN x); [intros [= <-]; discriminate |].
  unfold toFixed. destruct ((d <? 0) || (100 <? d)); [discriminate |].
  intros [= <-]. apply replace_first_nonempty.
  destruct x as [sx | [|] | | sx m e]; try discriminate.
  - by apply fixed_point_nonempty.
  - apply append_nonempty. destruct (at_least_1e21 m e).
    + unfold to_string_large. destruct (shortest m e 17 1) as [[s0 k] n].
      apply append_nonempty. rewrite append_cons. discriminate.
    + by apply fixed_point_nonempty.
Qed.

(** The cells of the row of the insulation sheet for a row of the
    table: the fourteen stored fields, then the two ratios and the label
    of the status. *)
Lemma insRow_returns (r : row) :
  exists d p,
    formatted (calculateDAR (r !! "val1m") (r !! "val30s")) (Some 2) = Returns (Some d)
    /\ formatted (calculatePI (r !! "val10m") (r !! "val1m")) (Some 2) = Returns (Some p)
    /\ insRow r =
       Returns (((fun f => r !! f) <$> insulation_columns)
                ++ [Some d; Some p;
                    ClassificationRules.label
                      (getStatusIP (calculatePI (r !! "val10m") (r !! "val1m")))]).
Proof.
  unfold insRow. cbv zeta.
  assert (H2 : 0 <= default 3 (Some 2) <= 100) by (cbn; lia).
  destruct (formatted_returns (calculateDAR (r !! "val1m") (r !! "val30s")) (Some 2) H2)
    as [d Hd].
  destruct (formatted_returns (calculatePI (r !! "val10m") (r !! "val1m")) (Some 2) H2)
    as [p Hp].
  exists d, p. rewrite Hd, Hp. by repeat split.
Qed.

(** X17. The export never fails: with the spreadsheet library loaded it
    writes one workbook of the four sheets TTR, Resistencia, TG Delta
    and Aislación, in this order; the first two have one row for each
    of the [2 N + 1] taps of the tap range under five and three heading
    rows, of nine and seven cells, the last two one row for each row of
    their table under three heading rows, of seven and seventeen cells.
    Without the library it writes nothing. *)
Theorem handleDownloadExcel_sheets (st : State) :
  handleDownloadExcel false st = Returns None
  /\ exists ttr res tg ins file,
       handleDownloadExcel true st =
       Returns (Some {| sheets := [ttr; res; tg; ins]; fileName := file |})
       /\ name <$> [ttr; res; tg; ins] = ["TTR"; "Resistencia"; "TG Delta"; "Aislación"]
       /\ widths 5 ttr = replicate (2 * tapRange st + 1) 9%nat
       /\ widths 3 res = replicate (2 * tapRange st + 1) 7%nat
       /\ widths 3 tg = replicate (length (tgDeltaData st)) 7%nat
       /\ widths 3 ins = replicate (length (insulationData st)) 17%nat.
Proof.
  split; [reflexivity |].
  assert (Hw : forall (A : Type) (P : A -> list cell -> Prop) (n : nat) items rows
                      (hd : list (list cell)),
             (forall (x : A) cells, P x cells -> length cells = n) ->
             Forall2 P items rows ->
             length <$> drop (length hd) (hd ++ rows) = replicate (length items) n).
  { intros A P n items rows hd HP HF. rewrite drop_app_length.
    induction HF as [| x cells items rows Hx _ IH]; [reflexivity |].
    cbn. by rewrite (HP _ _ Hx), IH. }
  assert (Htap : length (tapRows (tapRange st)) = (2 * tapRange st + 1)%nat).
  { rewrite tapRows_list, length_app, length_cons, !length_fmap, length_reverse,
      !length_seq. lia. }
  unfold handleDownloadExcel, ttrData, resData, tgData, insData. cbn [negb]. cbv iota.
  match goal with |- context [pushed (ttrRow ?d) ?items ?hd] =>
    destruct (pushed_returns (ttrRow d) (fun _ cells => length cells = 9%nat) items hd)
      as (ttr & -> & Httr)
  end.
  { intros r. destruct (ttrRow_returns (data st) r) as (a & b & c & _ & _ & _ & ->).
    by eexists. }
  match goal with |- context [pushed (resRow ?s ?d) ?items ?hd] =>
    destruct (pushed_returns (resRow s d) (fun _ cells => length cells = 7%nat) items hd)
      as (res & -> & Hres)
  end.
  { intros r. apply resRow_returns. }
  match goal with |- context [pushed tgRow ?items ?hd] =>
    destruct (pushed_returns tgRow (fun _ cells => length cells = 7%nat) items hd)
      as (tg & -> & Htg)
  end.
  { intros r. by eexists. }
  match goal with |- context [pushed insRow ?items ?hd] =>
    destruct (pushed_returns insRow (fun _ cells => length cells = 17%nat) items hd)
      as (ins & -> & Hins)
  end.
  { intros r. destruct (insRow_returns r) as (d & p & _ & _ & ->). by eexists. }
  unfold mbind, outcome_bind, mret, outcome_ret.
  do 5 eexists. split; [reflexivity |]. split; [reflexivity |].
  unfold widths. cbn [cells]. rewrite <- Htap.
  split; [| split; [| split]].
  - eapply (Hw _ _ 9%nat _ _ [_; _; _; _; _]); [| exact Httr]. auto.
  - eapply (Hw _ _ 7%nat _ _ [_; _; _]); [| exact Hres]. auto.
  - eapply (Hw _ _ 7%nat _ _ [_; _; _]); [| exact Htg]. auto.
  - eapply (Hw _ _ 17%nat _ _ [_; _; _]); [| exact Hins]. auto.
Qed.

Lemma pushed_row {A : Type} (f : A -> outcome (list cell)) (P : A -> list cell -> Prop)
    (items : list A) (hd : list (list cell)) :
  (forall item, exists r, f item = Returns r /\ P item r) ->
  exists sheet, pushed f items hd = Returns sheet
    /\ forall k item, items !! k = Some item ->
         exists cells, sheet !! (length hd + k)%nat = Some cells /\ P item cells.
Proof.
  intros Hf. destruct (pushed_returns f P items hd Hf) as (rows & -> & HF).
  eexists. split; [reflexivity |]. intros k item Hk.
  destruct (Forall2_lookup_l _ _ _ _ _ HF Hk) as (cells & Hc & HP).
  exists cells. split; [| exact HP].
  rewrite lookup_app_r by lia. by replace (length hd + k - length hd)%nat with k by lia.
Qed.

(** X18. A value typed into a cell of a tap shows in the TTR sheet of
    the export: in the row of the tap, under the five heading rows and
    at the place of the tap in the tap rows, the column of the field
    holds the stored text, the first column the label of the tap, and
    for a measured phase the column next to it holds the deviation from
    the rated ratio of the row, computed from the new text. *)
Theorem typed_tap_value_is_exported
    (st : State) (f v : string) (k col : nat) (dev : option nat) (tr : TapRow) :
  tapRows (tapRange st) !! k = Some tr ->
  (f, col, dev) ∈ ttr_columns ->
  exists sheet,
    ttrData (handleInputChange (id tr) f v st) = Returns sheet
    /\ cell_at sheet (5 + k) 0 = Some (Some (label tr))
    /\ cell_at sheet (5 + k) col = Some (Some (replace_first "." "," v))
    /\ forall c, dev = Some c ->
         exists text,
           formatted (calculateDeviation (Some (replace_first "." "," v))
                                         (tap_field (data st) (id tr) "ratedRatio")) None
           = Returns text
           /\ cell_at sheet (5 + k) c = Some text.
Proof.
  intros Hk Hf. unfold ttrData.
  match goal with |- context [pushed ?g ?items ?hd] =>
    destruct (pushed_row g
                (fun r cells => exists a b c,
                   formatted (calculateDeviation
                                (default ∅ (data (handleInputChange (id tr) f v st) !! id r)
                                   !! "phaseA")
                                (default ∅ (data (handleInputChange (id tr) f v st) !! id r)
                                   !! "ratedRatio")) None = Returns a
                   /\ formatted (calculateDeviation
                                (default ∅ (data (handleInputChange (id tr) f v st) !! id r)
                                   !! "phaseB")
                                (default ∅ (data (handleInputChange (id tr) f v st) !! id r)
                                   !! "ratedRatio")) None = Returns b
                   /\ formatted (calculateDeviation
                                (default ∅ (data (handleInputChange (id tr) f v st) !! id r)
                                   !! "phaseC")
                                (default ∅ (data (handleInputChange (id tr) f v st) !! id r)
                                   !! "ratedRatio")) None = Returns c
                   /\ cells =
                      [Some (label r);
                       default ∅ (data (handleInputChange (id tr) f v st) !! id r)
                         !! "ratioPercent";
                       default ∅ (data (handleInputChange (id tr) f v st) !! id r)
                         !! "ratedRatio";
                       default ∅ (data (handleInputChange (id tr) f v st) !! id r)
                         !! "phaseA"; a;
                       default ∅ (data (handleInputChange (id tr) f v st) !! id r)
                         !! "phaseB"; b;
                       default ∅ (data (handleInputChange (id tr) f v st) !! id r)
                         !! "phaseC"; c])
                items hd) as (sheet & Hsheet & Hrows)
  end.
  { intros r. destruct (ttrRow_returns (data (handleInputChange (id tr) f v st)) r)
      as (a & b & c & Ha & Hb & Hc & Hr).
    eexists. split; [exact Hr |]. by exists a, b, c. }
  change (tapRange (handleInputChange (id tr) f v st)) with (tapRange st) in Hsheet.
  exists sheet. split; [exact Hsheet |].
  destruct (Hrows k tr Hk) as (cells & Hcells & a & b & c & Ha & Hb & Hc & ->).
  unfold cell_at. cbn [length] in Hcells. rewrite Hcells. cbn [mbind option_bind].
  rewrite !tap_field_row in *.
  split; [reflexivity |].
  unfold ttr_columns in Hf.
  repeat (apply elem_of_cons in Hf as [Hf | Hf];
          [injection Hf as -> -> -> |]); [| | | | | by apply elem_of_nil in Hf].
  - split; [by rewrite input_change_field | discriminate].
  - split; [by rewrite input_change_field | discriminate].
  - split; [by rewrite input_change_field |].
    intros ? [= <-]. exists a. split; [| reflexivity].
    by rewrite input_change_field, input_change_other_field in Ha.
  - split; [by rewrite input_change_field |].
    intros ? [= <-]. exists b. split; [| reflexivity].
    by rewrite input_change_field, input_change_other_field in Hb.
  - split; [by rewrite input_change_field |].
    intros ? [= <-]. exists c. split; [| reflexivity].
    by rewrite input_change_field, input_change_other_field in Hc.
Qed.

Lemma typed_tap_value_is_exported_witness :
  let st := {| tapRange := 1; data := {[ "neutral" := {[ "ratedRatio" := "100" ]} ]};
               tgDeltaData := []; insulationData := [];
               headerInfo := emptyHeaderInfo 0;
               resistanceSettings := defaultResistanceSettings |} in
  exists sheet,
    ttrData (handleInputChange "neutral" "phaseA" "100.4" st) = Returns sheet
    /\ cell_at sheet 6 3 = Some (Some "100,4")
    /\ cell_at sheet 6 4 = Some (Some "0,400").
Proof.
  intros st.
  destruct (typed_tap_value_is_exported st "phaseA" "100.4" 1 3 (Some 4%nat) neutral_row)
    as (sheet & Hs & _ & Hv & Hd).
  - reflexivity.
  - unfold ttr_columns. do 2 apply list_elem_of_further. apply list_elem_of_here.
  - exists sheet. split; [exact Hs |]. split; [exact Hv |].
    destruct (Hd 4%nat eq_refl) as (text & Ht & Hc).
    change (cell_at sheet 6 4) with (cell_at sheet (5 + 1) 4). rewrite Hc. f_equal.
    vm_compute in Ht. by injection Ht as <-.
Defined.

(** X19. A value typed into a cell of the TG Delta table or of the
    insulation table shows in the sheet of its table: the row of the
    sheet under the three heading rows, at the place the edited row has
    in the table, holds the stored text in the column of the field. *)
Theorem typed_table_value_is_exported (st : State) (i f v : string) (k c : nat) (r : row) :
  r !! "id" = Some i ->
  (tgDeltaData st !! k = Some r -> tg_columns !! c = Some f ->
   exists sheet,
     tgData (handleTgDeltaChange i f v st) = Returns sheet
     /\ cell_at sheet (3 + k) c = Some (Some (tg_stored f v)))
  /\ (insulationData st !! k = Some r -> insulation_columns !! c = Some f ->
      exists sheet,
        insData (handleInsulationChange i f v st) = Returns sheet
        /\ cell_at sheet (3 + k) c = Some (Some (insulation_stored f v))).
Proof.
  intros Hi. split; intros Hk Hc.
  - unfold tgData.
    match goal with |- context [pushed ?g ?items ?hd] =>
      destruct (pushed_row g (fun r cells => cells = (fun f => r !! f) <$> tg_columns)
                  items hd) as (sheet & Hsheet & Hrows)
    end.
    { intros r'. by eexists. }
    exists sheet. split; [exact Hsheet |].
    pose proof (handleTgDeltaChange_cell st i f v k r Hk) as Hrow.
    destruct (Hrows k _ Hrow) as (cells & Hcells & ->).
    unfold cell_at. cbn [length] in Hcells. rewrite Hcells. cbn [mbind option_bind].
    rewrite list_lookup_fmap, Hc. cbn. rewrite bool_decide_eq_true_2 by exact Hi.
    by rewrite lookup_insert_eq.
  - unfold insData.
    match goal with |- context [pushed ?g ?items ?hd] =>
      destruct (pushed_row g
                  (fun r cells => exists tl, cells = ((fun f => r !! f) <$> insulation_columns) ++ tl)
                  items hd) as (sheet & Hsheet & Hrows)
    end.
    { intros r'. destruct (insRow_returns r') as (d & p & _ & _ & ->).
      eexists. split; [reflexivity |]. by eexists. }
    exists sheet. split; [exact Hsheet |].
    pose proof (handleInsulationChange_cell st i f v k r Hk) as Hrow.
    destruct (Hrows k _ Hrow) as (cells & Hcells & tl & ->).
    unfold cell_at. cbn [length] in Hcells. rewrite Hcells. cbn [mbind option_bind].
    rewrite lookup_app_l by (rewrite length_fmap; by eapply lookup_lt_Some).
    rewrite list_lookup_fmap, Hc. cbn. rewrite bool_decide_eq_true_2 by exact Hi.
    by rewrite lookup_insert_eq.
Qed.

Lemma typed_table_value_is_exported_witness :
  let st := {| tapRange := 5; data := ∅;
               tgDeltaData := [ {[ "id" := "a" ]}; {[ "id" := "b" ]} ];
               insulationData := [];
               headerInfo := emptyHeaderInfo 0;
               resistanceSettings := defaultResistanceSettings |} in
  exists sheet,
    tgData (handleTgDeltaChange "b" "tgPercent" "0.35" st) = Returns sheet
    /\ cell_at sheet 4 5 = Some (Some "0,35").
Proof.
  intros st.
  destruct (typed_table_value_is_exported st "b" "tgPercent" "0.35" 1 5 {[ "id" := "b" ]})
    as (H & _); [reflexivity |].
  apply H; reflexivity.
Defined.

(** X20. In the insulation sheet the status of a row is a hyphen exactly
    when its index cell is blank, which is when the index is not
    computed; otherwise the index cell is not blank and the status is
    one of the two verdicts. *)
Theorem insulation_status_matches_index (st : State) :
  exists sheet,
    insData st = Returns sheet
    /\ forall k r, insulationData st !! k = Some r ->
         exists pi status,
           cell_at sheet (3 + k) 15 = Some (Some pi)
           /\ cell_at sheet (3 + k) 16 = Some (Some status)
           /\ (status = "-" <-> pi = EmptyString)
           /\ (pi = EmptyString <-> calculatePI (r !! "val10m") (r !! "val1m") = None)
           /\ (status = "-" \/ status = "ACEPTABLE" \/ status = "NO ACEPTABLE").
Proof.
  unfold insData.
  match goal with |- context [pushed ?g ?items ?hd] =>
    destruct (pushed_row g
                (fun r cells => exists d p,
                   formatted (calculatePI (r !! "val10m") (r !! "val1m")) (Some 2)
                   = Returns (Some p)
                   /\ cells = ((fun f => r !! f) <$> insulation_columns)
                              ++ [Some d; Some p;
                                  ClassificationRules.label
                                    (getStatusIP (calculatePI (r !! "val10m") (r !! "val1m")))])
                items hd) as (sheet & Hsheet & Hrows)
  end.
  { intros r. destruct (insRow_returns r) as (d & p & _ & Hp & ->).
    eexists. split; [reflexivity |]. by exists d, p. }
  exists sheet. split; [exact Hsheet |]. intros k r Hk.
  destruct (Hrows k r Hk) as (cells & Hcells & d & p & Hp & ->).
  unfold cell_at. cbn [length] in Hcells. rewrite Hcells. cbn [mbind option_bind].
  destruct (calculatePI (r !! "val10m") (r !! "val1m")) as [x |] eqn:Hx.
  - assert (Hne : p <> EmptyString).
    { unfold formatted in Hp. destruct (formatNum (Some x) (Some 2)) as [s |] eqn:Hs;
        [| discriminate Hp].
      injection Hp as <-. eapply formatNum_nonempty; [| exact Hs]. lia. }
    unfold getStatusIP. destruct (gtb x one); eexists p, _;
      (split; [reflexivity |]); (split; [reflexivity |]);
      (split; [split; [discriminate | congruence] |]);
      (split; [split; [congruence | discriminate] |]); auto.
  - injection Hp as <-. exists EmptyString, "-".
    split; [reflexivity |]. split; [reflexivity |]. by repeat split; auto.
Qed.

Lemma pushed_ext {A : Type} (f g : A -> outcome (list cell)) (items : list A)
    (hd : list (list cell)) :
  (forall item, item ∈ items -> f item = g item) ->
  pushed f items hd = pushed g items hd.
Proof.
  revert hd. induction items as [| item items IH]; intros hd H; [reflexivity |].
  cbn [pushed]. rewrite (H item) by apply list_elem_of_here.
  destruct (g item) as [r |]; [| reflexivity].
  apply IH. intros x Hx. apply H. by apply list_elem_of_further.
Qed.

(** X23. The rows of the taps outside the tap range stay in the tap
    data but are not exported: two editor states with the same tap
    range, header and resistance settings whose tap data agree on the
    rows shown for the tap range have the same TTR sheet and the same
    resistance sheet. *)
Theorem hidden_taps_are_not_exported (st st' : State) :
  tapRange st' = tapRange st -> headerInfo st' = headerInfo st ->
  resistanceSettings st' = resistanceSettings st ->
  (forall i, i ∈ visible_ids (tapRange st) -> data st' !! i = data st !! i) ->
  ttrData st' = ttrData st /\ resData st' = resData st.
Proof.
  intros Ht Hh Hr Hd. unfold ttrData, resData. rewrite Ht, Hh, Hr.
  assert (Hrow : forall r, r ∈ tapRows (tapRange st) ->
                           data st' !! id r = data st !! id r).
  { intros r Hin. apply Hd. unfold visible_ids. apply list_elem_of_fmap. by exists r. }
  split; apply pushed_ext; intros r Hin.
  - unfold ttrRow. by rewrite (Hrow r Hin).
  - unfold resRow. by rewrite (Hrow r Hin).
Qed.

Lemma hidden_taps_are_not_exported_witness :
  let st := {| tapRange := 1; data := {[ "pos-1" := {[ "phaseA" := "10,1" ]} ]};
               tgDeltaData := []; insulationData := [];
               headerInfo := emptyHeaderInfo 0;
               resistanceSettings := defaultResistanceSettings |} in
  ttrData (handleInputChange "pos-2" "phaseA" "10.2" st) = ttrData st.
Proof.
  intros st.
  destruct (hidden_taps_are_not_exported st (handleInputChange "pos-2" "phaseA" "10.2" st))
    as (H & _); [reflexivity | reflexivity | reflexivity | | exact H].
  intros i Hi. unfold handleInputChange, setData. cbn [data].
  apply lookup_insert_ne. intros <-. vm_compute in Hi.
  repeat (apply elem_of_cons in Hi as [Hi | Hi]; [discriminate Hi |]).
  by apply elem_of_nil in Hi.
Defined.

End Sheets.
